(** * validate_changes.py: a shallow embedding and its verified properties

    The script scans a fixed list of Swift files for superficial syntax
    anomalies.  [check_swift_file] reads one file and returns a list of issue
    strings; [main] drives it over the file list, prints a report and returns
    the process exit code.

    Python text is a sequence of Unicode code points, so a [str] is a list of
    code points ([N]).  The functions of Python's library that the script
    calls ([str.split], [str.count], [in], [str.strip], [re.match], the
    formatting of an [int], the UTF-8 text reader) are modelled in the modules
    [PyStr], [Re] and [TextIO]; the script itself is embedded after them. *)

From Stdlib Require Import ZArith NArith List String Ascii Bool Lia.
From Stdlib Require Import DecimalString Sorted.
From Stdlib Require DecimalPos DecimalZ.
From Stdlib Require Import Permutation.
Import ListNotations.

Set Implicit Arguments.

(** A character is a Unicode code point, a string a list of them. *)
Definition char : Type := N.
Definition str : Type := list char.

(** The text of an ASCII literal of the source. *)
Definition lit (s : string) : str := map N_of_ascii (list_ascii_of_string s).

(* ================================================================== *)
(** ** The methods of Python's [str] used by the script *)

Module PyStr.

Definition NL : char := 10%N.

Fixpoint eqb (a b : str) : bool :=
  match a, b with
  | [], [] => true
  | x :: a', y :: b' => N.eqb x y && eqb a' b'
  | _, _ => false
  end.

(** [s.split(sep)] for a separator of one character: the pieces between
    the occurrences of [sep]; there is always at least one piece. *)
Fixpoint split (sep : char) (s : str) : list str :=
  match s with
  | [] => [[]]
  | c :: rest =>
      if N.eqb c sep then [] :: split sep rest
      else match split sep rest with
           | piece :: pieces => (c :: piece) :: pieces
           | [] => [[c]]
           end
  end.

(** [s.count(c)] for a substring [c] of one character. *)
Fixpoint count (c : char) (s : str) : Z :=
  match s with
  | [] => 0%Z
  | x :: rest => ((if N.eqb x c then 1 else 0) + count c rest)%Z
  end.

Fixpoint startswith (prefix s : str) : bool :=
  match prefix, s with
  | [], _ => true
  | _ :: _, [] => false
  | a :: prefix', b :: s' => N.eqb a b && startswith prefix' s'
  end.

(** [sub in s]. *)
Fixpoint contains (sub s : str) : bool :=
  startswith sub s ||
  match s with
  | [] => false
  | _ :: s' => contains sub s'
  end.

(** [Py_UNICODE_ISSPACE]: the characters [str.strip()] removes and the
    class [\s] of a [str] pattern matches. *)
Definition isspace (c : char) : bool :=
  ((0x09 <=? c) && (c <=? 0x0D) || (0x1C <=? c) && (c <=? 0x20)
   || (c =? 0x85) || (c =? 0xA0) || (c =? 0x1680)
   || (0x2000 <=? c) && (c <=? 0x200A)
   || (c =? 0x2028) || (c =? 0x2029) || (c =? 0x202F)
   || (c =? 0x205F) || (c =? 0x3000))%N.

Fixpoint lstrip (s : str) : str :=
  match s with
  | [] => []
  | c :: rest => if isspace c then lstrip rest else s
  end.

Definition rstrip (s : str) : str := rev (lstrip (rev s)).

(** [s.strip()]. *)
Definition strip (s : str) : str := rstrip (lstrip s).

(** The text an f-string gives for an [int]: its decimal digits, with a
    minus sign in front when it is negative. *)
Definition format_int (z : Z) : str := lit (NilZero.string_of_int (Z.to_int z)).

Definition format_nat (n : nat) : str := format_int (Z.of_nat n).

End PyStr.

(* ================================================================== *)
(** ** Regular expressions: what [re.match] decides *)

Module Re.

(** The fragment of the pattern language the script's pattern is written
    in.  A character class is given by its membership test. *)
Inductive regex : Type :=
| Void : regex
| Eps : regex
| Class : (char -> bool) -> regex
| Cat : regex -> regex -> regex
| Alt : regex -> regex -> regex
| Star : regex -> regex.

Definition Plus (r : regex) : regex := Cat r (Star r).

Fixpoint Lit (s : str) : regex :=
  match s with
  | [] => Eps
  | c :: rest => Cat (Class (N.eqb c)) (Lit rest)
  end.

(** The strings of a pattern. *)
Inductive lang : regex -> str -> Prop :=
| lang_eps : lang Eps []
| lang_class : forall (p : char -> bool) c, p c = true -> lang (Class p) [c]
| lang_cat : forall r1 r2 s1 s2, lang r1 s1 -> lang r2 s2 -> lang (Cat r1 r2) (s1 ++ s2)
| lang_alt_l : forall r1 r2 s, lang r1 s -> lang (Alt r1 r2) s
| lang_alt_r : forall r1 r2 s, lang r2 s -> lang (Alt r1 r2) s
| lang_star_nil : forall r, lang (Star r) []
| lang_star_cons : forall r s1 s2, lang r s1 -> lang (Star r) s2 -> lang (Star r) (s1 ++ s2).

Fixpoint nullable (r : regex) : bool :=
  match r with
  | Void => false
  | Eps => true
  | Class _ => false
  | Cat r1 r2 => nullable r1 && nullable r2
  | Alt r1 r2 => nullable r1 || nullable r2
  | Star _ => true
  end.

(** The pattern of what may follow a first character [c]. *)
Fixpoint deriv (c : char) (r : regex) : regex :=
  match r with
  | Void => Void
  | Eps => Void
  | Class p => if p c then Eps else Void
  | Cat r1 r2 =>
      if nullable r1 then Alt (Cat (deriv c r1) r2) (deriv c r2)
      else Cat (deriv c r1) r2
  | Alt r1 r2 => Alt (deriv c r1) (deriv c r2)
  | Star r1 => Cat (deriv c r1) (Star r1)
  end.

Fixpoint accepts (r : regex) (s : str) : bool :=
  match s with
  | [] => nullable r
  | c :: rest => accepts (deriv c r) rest
  end.

(** [$]: the end of the string, or just before a newline that ends it. *)
Definition Dollar : regex := Alt Eps (Class (N.eqb PyStr.NL)).

(** [.] without DOTALL: any character but a newline. *)
Definition dot (c : char) : bool := negb (N.eqb c PyStr.NL).

(** [re.match(body + '$', s) is not None], for a pattern that ends in [$]:
    some prefix of [s] matches [body] and ends where [$] holds.  The
    matcher backtracks over every split, so it finds a match exactly when
    one exists. *)
Definition match_dollar (body : regex) (s : str) : bool :=
  accepts (Cat body Dollar) s.

(** Every character of [s] is in the class [p]. *)
Definition all (p : char -> bool) (s : str) : Prop := forallb p s = true.

End Re.

(* ================================================================== *)
(** ** Reading a text file: [open(path, 'r', encoding='utf-8').read()] *)

Module TextIO.

Definition cont (b : N) : bool := ((0x80 <=? b) && (b <=? 0xBF))%N.
Definition between (lo hi b : N) : bool := ((lo <=? b) && (b <=? hi))%N.
Definition low6 (b : N) : N := (b - 0x80)%N.

(** The strict UTF-8 decoder: no overlong forms, no surrogates, nothing
    above U+10FFFF.  [None] is [UnicodeDecodeError]. *)
Fixpoint decode_utf8 (bs : list N) : option str :=
  match bs with
  | [] => Some []
  | b0 :: t0 =>
      if (b0 <=? 0x7F)%N then option_map (cons b0) (decode_utf8 t0)
      else if between 0xC2 0xDF b0 then
        match t0 with
        | b1 :: t1 =>
            if cont b1
            then option_map (cons ((b0 - 0xC0) * 64 + low6 b1)%N) (decode_utf8 t1)
            else None
        | _ => None
        end
      else if between 0xE0 0xEF b0 then
        match t0 with
        | b1 :: b2 :: t2 =>
            if between (if (b0 =? 0xE0)%N then 0xA0 else 0x80)%N
                       (if (b0 =? 0xED)%N then 0x9F else 0xBF)%N b1 && cont b2
            then option_map
                   (cons (((b0 - 0xE0) * 64 + low6 b1) * 64 + low6 b2)%N)
                   (decode_utf8 t2)
            else None
        | _ => None
        end
      else if between 0xF0 0xF4 b0 then
        match t0 with
        | b1 :: b2 :: b3 :: t3 =>
            if between (if (b0 =? 0xF0)%N then 0x90 else 0x80)%N
                       (if (b0 =? 0xF4)%N then 0x8F else 0xBF)%N b1
               && cont b2 && cont b3
            then option_map
                   (cons ((((b0 - 0xF0) * 64 + low6 b1) * 64 + low6 b2) * 64
                          + low6 b3)%N)
                   (decode_utf8 t3)
            else None
        | _ => None
        end
      else None
  end.

(** Text mode with the default [newline=None]: a carriage return, with
    the line feed after it if there is one, is read as one line feed. *)
Fixpoint universal_newlines (s : str) : str :=
  match s with
  | [] => []
  | c :: rest =>
      if (c =? 13)%N then
        match rest with
        | d :: rest' =>
            if (d =? 10)%N then 10%N :: universal_newlines rest'
            else 10%N :: universal_newlines rest
        | [] => [10%N]
        end
      else c :: universal_newlines rest
  end.

(** What a path of the file system holds. *)
Inductive entry : Type :=
| RegularFile (data : list Byte.byte)
| Directory.

Definition filesystem : Type := str -> option entry.

Inductive exn : Type :=
| FileNotFoundError
| IsADirectoryError
| UnicodeDecodeError.

(** [os.path.exists(path)]. *)
Definition path_exists (fs : filesystem) (path : str) : bool :=
  match fs path with
  | Some _ => true
  | None => false
  end.

(** [with open(path, 'r', encoding='utf-8') as f: f.read()]. *)
Definition read_text (fs : filesystem) (path : str) : exn + str :=
  match fs path with
  | None => inl FileNotFoundError
  | Some Directory => inl IsADirectoryError
  | Some (RegularFile data) =>
      match decode_utf8 (map Byte.to_N data) with
      | Some s => inr (universal_newlines s)
      | None => inl UnicodeDecodeError
      end
  end.

End TextIO.

(* ================================================================== *)
(** ** Output and exceptions

    A computation of the driver prints lines and then either returns a
    value or raises; nothing in the script catches an exception, so a raise
    ends every enclosing computation.  [fst] is what was printed, one element
    per call of [print]. *)

Module IO.
Import TextIO.

Definition io (A : Type) : Type := (list str * (exn + A))%type.

Definition ret {A} (a : A) : io A := ([], inr a).

Definition bind {A B} (m : io A) (k : A -> io B) : io B :=
  match m with
  | (out, inl e) => (out, inl e)
  | (out, inr a) => (out ++ fst (k a), snd (k a))
  end.

Definition print (line : str) : io unit := ([line], inr tt).

Definition lift {A} (r : exn + A) : io A := ([], r).

Definition stdout {A} (m : io A) : list str := fst m.
Definition outcome {A} (m : io A) : exn + A := snd m.

Arguments bind : simpl never.

End IO.

Notation "x <- m ;; k" := (IO.bind m (fun x => k))
  (at level 61, m at next level, right associativity).
Notation "m ;;; k" := (IO.bind m (fun _ => k))
  (at level 61, right associativity).

(* ================================================================== *)
(** ** The script *)

Section Script.
Import PyStr Re TextIO IO.

(** [Py_UNICODE_ISALNUM], the table of the Unicode database that the
    class [\w] consults.  The script's behaviour is stated for any table. *)
Variable isalnum : char -> bool.

(** [\w]: an alphanumeric character or the underscore. *)
Definition isword (c : char) : bool := isalnum c || N.eqb c 95.

(** The pattern [\s*func\s+\w+.*\{\s*] that precedes the final [$]. *)
Definition func_pattern : regex :=
  Cat (Star (Class isspace))
 (Cat (Lit (lit "func"))
 (Cat (Plus (Class isspace))
 (Cat (Plus (Class isword))
 (Cat (Star (Class dot))
 (Cat (Lit (lit "{"))
      (Star (Class isspace))))))).

Definition marker : str := lit "DispatchQueue.main.async".
Definition open_brace : char := 123%N.
Definition close_brace : char := 125%N.
Definition open_paren : char := 40%N.
Definition close_paren : char := 41%N.
Definition open_bracket : char := 91%N.
Definition close_bracket : char := 93%N.

(** The local variables of [check_swift_file]. *)
Record scan_state : Type := mk_state {
  brace_count : Z;
  paren_count : Z;
  bracket_count : Z;
  issues : list str
}.

(** The state the function starts from at every call. *)
Definition init_state : scan_state := mk_state 0 0 0 [].

Definition append (msg : str) (st : scan_state) : scan_state :=
  mk_state (brace_count st) (paren_count st) (bracket_count st) (issues st ++ [msg]).

Definition async_message (i : nat) : str :=
  lit "Line " ++ format_nat i
    ++ lit ": DispatchQueue.main.async might be missing opening brace".

Definition empty_body_message (i : nat) : str :=
  lit "Line " ++ format_nat i ++ lit ": Function appears to have empty body".

(** One iteration of [for i, line in enumerate(lines, 1)]. *)
Definition scan_line (lines : list str) (i : nat) (line : str)
    (st : scan_state) : scan_state :=
  let st1 :=
    mk_state
      (brace_count st + (count open_brace line - count close_brace line))
      (paren_count st + (count open_paren line - count close_paren line))
      (bracket_count st + (count open_bracket line - count close_bracket line))
      (issues st) in
  let st2 :=
    if contains marker line && negb (contains [open_brace] line)
       && (i <? List.length lines)%nat
    then
      let next_line := if (i <? List.length lines)%nat then nth i lines [] else [] in
      if negb (contains [open_brace] next_line)
      then append (async_message i) st1
      else st1
    else st1 in
  if match_dollar func_pattern line then
    if (i <? List.length lines)%nat && eqb (strip (nth i lines [])) [close_brace]
    then append (empty_body_message i) st2
    else st2
  else st2.

(** The loop over the lines not yet visited, the first of them numbered [i]. *)
Fixpoint scan_lines (lines : list str) (i : nat) (todo : list str)
    (st : scan_state) : scan_state :=
  match todo with
  | [] => st
  | line :: todo' => scan_lines lines (S i) todo' (scan_line lines i line st)
  end.

Definition braces_message (n : Z) : str :=
  lit "Mismatched braces: " ++ format_int n ++ lit " extra opening braces".
Definition parentheses_message (n : Z) : str :=
  lit "Mismatched parentheses: " ++ format_int n ++ lit " extra opening parentheses".
Definition brackets_message (n : Z) : str :=
  lit "Mismatched brackets: " ++ format_int n ++ lit " extra opening brackets".

(** The three checks of the final counts. *)
Definition final_counts (st : scan_state) : scan_state :=
  let st1 := if (brace_count st =? 0)%Z then st
             else append (braces_message (brace_count st)) st in
  let st2 := if (paren_count st1 =? 0)%Z then st1
             else append (parentheses_message (paren_count st1)) st1 in
  if (bracket_count st2 =? 0)%Z then st2
  else append (brackets_message (bracket_count st2)) st2.

(** [check_swift_file] from the text it has read to the issues it returns. *)
Definition scan_text (content : str) : list str :=
  let lines := split NL content in
  issues (final_counts (scan_lines lines 1 lines init_state)).

Definition check_swift_file (fs : filesystem) (filepath : str) : exn + list str :=
  match read_text fs filepath with
  | inl e => inl e
  | inr content => inr (scan_text content)
  end.

(** *** The driver *)

Definition modified_files : list str :=
  [ lit "i18n editor/Views/TranslationEditorView.swift";
    lit "i18n editor/PermissionManager.swift";
    lit "i18n editor/FileSystemManager.swift";
    lit "i18n editor/i18n_editorApp.swift";
    lit "i18n editor/ContentView.swift";
    lit "i18n editor/ProjectManager.swift" ].

Definition bullet : char := 0x2022%N.
Definition warning_sign : str := [0x26A0; 0xFE0F]%N.

Fixpoint print_issues (found : list str) : io unit :=
  match found with
  | [] => ret tt
  | issue :: rest =>
      print (lit "    " ++ [bullet] ++ lit " " ++ issue) ;;; print_issues rest
  end.

(** The body of [for filepath in modified_files]; it returns the new
    value of [total_issues]. *)
Definition check_one (fs : filesystem) (filepath : str) (total_issues : Z) : io Z :=
  if path_exists fs filepath then
    print ([NL; 0x1F4C4]%N ++ lit " Checking " ++ filepath ++ lit "...") ;;;
    found <- lift (check_swift_file fs filepath) ;;
    match found with
    | _ :: _ =>
        print (lit "  " ++ [0x274C]%N ++ lit " Found "
                 ++ format_nat (List.length found) ++ lit " issues:") ;;;
        print_issues found ;;;
        ret (total_issues + Z.of_nat (List.length found))%Z
    | [] =>
        print (lit "  " ++ [0x2705]%N ++ lit " No syntax issues found") ;;;
        ret total_issues
    end
  else
    print (lit "  " ++ warning_sign ++ lit "  File not found: " ++ filepath) ;;;
    ret total_issues.

Fixpoint check_files (fs : filesystem) (files : list str) (total_issues : Z) : io Z :=
  match files with
  | [] => ret total_issues
  | filepath :: rest =>
      total <- check_one fs filepath total_issues ;;
      check_files fs rest total
  end.

Definition files_checked (fs : filesystem) (files : list str) : nat :=
  List.length (filter (path_exists fs) files).

(** The driver over a file list; [main] runs it on [modified_files]. *)
Definition run (fs : filesystem) (files : list str) : io Z :=
  print ([0x1F50D]%N ++ lit " Validating Swift code changes...") ;;;
  total_issues <- check_files fs files 0%Z ;;
  print ([NL; 0x1F4CA]%N ++ lit " Validation Summary:") ;;;
  print (lit "  " ++ [bullet] ++ lit " Files checked: "
           ++ format_nat (files_checked fs files)) ;;;
  print (lit "  " ++ [bullet] ++ lit " Total issues: " ++ format_int total_issues) ;;;
  if (total_issues =? 0)%Z then
    print (lit "  " ++ [0x1F389]%N ++ lit " All files passed basic syntax validation!") ;;;
    ret 0%Z
  else
    print (lit "  " ++ warning_sign ++ lit "  Some issues found - please review") ;;;
    ret 1%Z.

Definition main (fs : filesystem) : io Z := run fs modified_files.

(** [sys.exit(main())]: the status is the returned code, and 1 when an
    exception nobody caught ended the interpreter. *)
Definition exit_status (fs : filesystem) : Z :=
  match outcome (main fs) with
  | inr code => code
  | inl _ => 1%Z
  end.

End Script.

(* ================================================================== *)
(** ** The vocabulary of the properties

    The conditions of the two line checks and the balance of a bracket kind,
    stated on the text itself rather than through the library calls the
    script makes.  The lemmas further down relate each to the script's test. *)

Section Vocabulary.
Import PyStr Re.

Variable isalnum : char -> bool.

(** The line has the marker of an asynchronous dispatch somewhere in it. *)
Definition has_marker (line : str) : Prop :=
  exists before after, line = before ++ marker ++ after.

Definition has_open_brace (line : str) : Prop := In open_brace line.

(** Optional white space, the keyword [func], white space, an identifier,
    any characters, an opening brace, optional white space, end of line. *)
Definition func_header (line : str) : Prop :=
  exists indent gap ident rest trail,
    line = indent ++ lit "func" ++ gap ++ ident ++ rest ++ [open_brace] ++ trail
    /\ all isspace indent
    /\ gap <> [] /\ all isspace gap
    /\ ident <> [] /\ all (isword isalnum) ident
    /\ all isspace trail.

(** A closing brace with nothing but white space around it. *)
Definition lone_closing_brace (line : str) : Prop :=
  exists before after,
    line = before ++ [close_brace] ++ after /\ all isspace before /\ all isspace after.

(** The two line checks. *)
Inductive heuristic : Type := DanglingAsync | EmptyBody.

Definition line_message (h : heuristic) (i : nat) : str :=
  match h with
  | DanglingAsync => async_message i
  | EmptyBody => empty_body_message i
  end.

(** Whether check [h] reports line [i] (numbered from 1) of [lines]. *)
Definition fires (lines : list str) (i : nat) (line : str) (h : heuristic) : bool :=
  match h with
  | DanglingAsync =>
      contains marker line && negb (contains [open_brace] line)
      && (i <? List.length lines)%nat
      && negb (contains [open_brace] (nth i lines []))
  | EmptyBody =>
      match_dollar (func_pattern isalnum) line
      && (i <? List.length lines)%nat
      && eqb (strip (nth i lines [])) [close_brace]
  end.

(** The reports of one line, and of the lines [todo] numbered from [i]. *)
Definition line_findings (lines : list str) (i : nat) (line : str)
    : list (nat * heuristic) :=
  map (pair i) (filter (fires lines i line) [DanglingAsync; EmptyBody]).

Fixpoint findings_from (lines : list str) (i : nat) (todo : list str)
    : list (nat * heuristic) :=
  match todo with
  | [] => []
  | line :: todo' => line_findings lines i line ++ findings_from lines (S i) todo'
  end.

Definition render (f : nat * heuristic) : str := line_message (snd f) (fst f).

(** The three bracket kinds, in the order of the final checks. *)
Inductive bracket_kind : Type := Brace | Parenthesis | Bracket.

Definition kinds : list bracket_kind := [Brace; Parenthesis; Bracket].

Definition opener (k : bracket_kind) : char :=
  match k with
  | Brace => open_brace
  | Parenthesis => open_paren
  | Bracket => open_bracket
  end.

Definition closer (k : bracket_kind) : char :=
  match k with
  | Brace => close_brace
  | Parenthesis => close_paren
  | Bracket => close_bracket
  end.

Definition plural (k : bracket_kind) : str :=
  match k with
  | Brace => lit "braces"
  | Parenthesis => lit "parentheses"
  | Bracket => lit "brackets"
  end.

(** Openers minus closers over a whole text. *)
Definition balance (k : bracket_kind) (content : str) : Z :=
  (count (opener k) content - count (closer k) content)%Z.

Definition balance_message (k : bracket_kind) (n : Z) : str :=
  lit "Mismatched " ++ plural k ++ lit ": " ++ format_int n
    ++ lit " extra opening " ++ plural k.

(** The issue, if any, that the final check of kind [k] adds. *)
Definition balance_issue (k : bracket_kind) (content : str) : list str :=
  if (balance k content =? 0)%Z then []
  else [balance_message k (balance k content)].

(** An issue of a line check starts with [Line ], one of the final check
    of kind [k] with [Mismatched ] and the kind's name. *)
Definition is_line_issue (msg : str) : bool := startswith (lit "Line ") msg.

Definition is_balance_issue (k : bracket_kind) (msg : str) : bool :=
  startswith (lit "Mismatched " ++ plural k ++ lit ":") msg.

(** The counter of kind [k] in a state of the scan. *)
Definition counter (k : bracket_kind) (st : scan_state) : Z :=
  match k with
  | Brace => brace_count st
  | Parenthesis => paren_count st
  | Bracket => bracket_count st
  end.

(** Openers minus closers summed line by line. *)
Fixpoint lines_balance (k : bracket_kind) (lines : list str) : Z :=
  match lines with
  | [] => 0%Z
  | line :: rest => (balance k line + lines_balance k rest)%Z
  end.

End Vocabulary.

Section DriverVocabulary.
Import TextIO IO.

Variable isalnum : char -> bool.

(** If the path is there, its text can be read. *)
Definition readable (fs : filesystem) (path : str) : Prop :=
  path_exists fs path = true -> exists content, read_text fs path = inr content.

(** What a path adds to the total: the number of issues of its text when
    the file is there and can be read, and nothing otherwise. *)
Definition issue_count (fs : filesystem) (path : str) : Z :=
  if path_exists fs path then
    match check_swift_file isalnum fs path with
    | inr found => Z.of_nat (List.length found)
    | inl _ => 0%Z
    end
  else 0%Z.

Definition issues_total (fs : filesystem) (files : list str) : Z :=
  fold_right Z.add 0%Z (map (issue_count fs) files).

(** The lines of the report that the properties name. *)
Definition banner_line : str := [0x1F50D]%N ++ lit " Validating Swift code changes...".

Definition checking_line (path : str) : str :=
  [PyStr.NL; 0x1F4C4]%N ++ lit " Checking " ++ path ++ lit "...".

Definition not_found_line (path : str) : str :=
  lit "  " ++ warning_sign ++ lit "  File not found: " ++ path.

Definition summary_lines (checked : nat) (total : Z) : list str :=
  [ [PyStr.NL; 0x1F4CA]%N ++ lit " Validation Summary:";
    lit "  " ++ [bullet] ++ lit " Files checked: " ++ PyStr.format_nat checked;
    lit "  " ++ [bullet] ++ lit " Total issues: " ++ PyStr.format_int total ].

Definition all_passed_line : str :=
  lit "  " ++ [0x1F389]%N ++ lit " All files passed basic syntax validation!".

(** A raise passes through; a returned total is moved by [base]. *)
Definition add_to (base : Z) (r : exn + Z) : exn + Z :=
  match r with
  | inl e => inl e
  | inr d => inr (base + d)%Z
  end.

End DriverVocabulary.

Section ReportVocabulary.
Import PyStr TextIO IO.

Variable isalnum : char -> bool.

(** A decimal digit. *)
Definition isdigit (c : char) : bool := ((48 <=? c) && (c <=? 57))%N.

(** One of the six characters the scan counts. *)
Definition is_bracket (c : char) : bool :=
  existsb (N.eqb c)
    [open_brace; close_brace; open_paren; close_paren; open_bracket; close_bracket].

(** The remaining lines of the report. *)
Definition issue_line (issue : str) : str :=
  lit "    " ++ [bullet] ++ lit " " ++ issue.

Definition found_line (n : nat) : str :=
  lit "  " ++ [0x274C]%N ++ lit " Found " ++ format_nat n ++ lit " issues:".

Definition no_issues_line : str :=
  lit "  " ++ [0x2705]%N ++ lit " No syntax issues found".

Definition some_issues_line : str :=
  lit "  " ++ warning_sign ++ lit "  Some issues found - please review".

Definition verdict_line (total : Z) : str :=
  if (total =? 0)%Z then all_passed_line else some_issues_line.

(** The block of the report for one path: the "File not found" line when
    it is absent; otherwise the line that announces it, followed by the "No
    syntax issues found" line or by the count and one line per issue. *)
Definition file_report (fs : filesystem) (path : str) : list str :=
  if path_exists fs path then
    checking_line path
    :: match check_swift_file isalnum fs path with
       | inr [] => [no_issues_line]
       | inr found => found_line (List.length found) :: map issue_line found
       | inl _ => []
       end
  else [not_found_line path].

(** A text, or the bytes of a file, with every line feed turned into a
    carriage return and a line feed. *)
Definition CR : char := 13%N.

Fixpoint to_crlf (s : list N) : list N :=
  match s with
  | [] => []
  | c :: rest =>
      if (c =? NL)%N then CR :: NL :: to_crlf rest else c :: to_crlf rest
  end.

Definition crlf_bytes (data : list Byte.byte) : list Byte.byte :=
  flat_map (fun b => if Byte.eqb b Byte.x0a then [Byte.x0d; Byte.x0a] else [b]) data.

End ReportVocabulary.

(* ================================================================== *)
(** ** Sample inputs *)

Module Samples.
Import TextIO.

(** The ASCII part of the alphanumeric table. *)
Definition ascii_alnum (c : char) : bool :=
  ((48 <=? c) && (c <=? 57) || (65 <=? c) && (c <=? 90)
   || (97 <=? c) && (c <=? 122))%N.

(** A function whose body is empty: the header on line 1, the closing
    brace alone on line 2. *)
Definition empty_func : str := lit "func f() {" ++ [PyStr.NL] ++ lit "}".

(** An asynchronous dispatch with no brace on its line or the next. *)
Definition dangling_async : str :=
  lit "  DispatchQueue.main.async" ++ [PyStr.NL] ++ lit "  foo()".

Definition one_open_brace : str := lit "if x {".
Definition two_closers : str := lit "}}".
Definition balanced : str := lit "f([x]) { }".

Definition bytes_of (s : str) : list Byte.byte :=
  map (fun c => match Byte.of_N c with Some b => b | None => Byte.x00 end) s.

Definition first_file : str := lit "i18n editor/Views/TranslationEditorView.swift".
Definition last_file : str := lit "i18n editor/ProjectManager.swift".

(** No file of the list is there. *)
Definition empty_fs : filesystem := fun _ => None.

(** A file system that holds one file. *)
Definition single (path : str) (e : entry) : filesystem :=
  fun p => if PyStr.eqb p path then Some e else None.

(** The first file is there and holds the byte FF, which is not UTF-8. *)
Definition undecodable_fs : filesystem :=
  single first_file (RegularFile [Byte.xff]).

(** The first path is a directory. *)
Definition directory_fs : filesystem := single first_file Directory.

(** Only the last file is there; it has one unmatched brace. *)
Definition one_issue_fs : filesystem :=
  single last_file (RegularFile (bytes_of one_open_brace)).

Definition clean_fs : filesystem :=
  single last_file (RegularFile (bytes_of balanced)).

(** An empty function followed by two unmatched opening braces. *)
Definition two_issues : str := empty_func ++ [PyStr.NL] ++ lit "{{".

Definition two_issues_fs : filesystem :=
  single last_file (RegularFile (bytes_of two_issues)).


(** Two lines with no bracket and no marker. *)
Definition plain_text : str := lit "let x = 1" ++ [PyStr.NL] ++ lit "let y = x".

(** A closing brace before its opening brace, and the two in order. *)
Definition misordered : str := lit "}{".
Definition ordered : str := lit "{}".

(** The dangling dispatch followed by more lines. *)
Definition dangling_async_longer : str :=
  dangling_async ++ [PyStr.NL] ++ lit "}}" ++ [PyStr.NL] ++ lit "func g() {".

(** The empty function with LF line endings under the last path, and with
    CR LF line endings under the first. *)
Definition lf_fs : filesystem :=
  single last_file (RegularFile (bytes_of empty_func)).

Definition crlf_fs : filesystem :=
  single first_file (RegularFile (crlf_bytes (bytes_of empty_func))).

End Samples.

(* ================================================================== *)
(** ** The matcher decides the language of a pattern *)

Module ReFacts.
Import Re.

Lemma nullable_sound : forall r, nullable r = true -> lang r [].
Proof.
  induction r; simpl; intros H; try discriminate.
  - constructor.
  - apply andb_true_iff in H. destruct H as [H1 H2].
    apply (@lang_cat r1 r2 [] []); auto.
  - apply orb_true_iff in H. destruct H; [apply lang_alt_l | apply lang_alt_r]; auto.
  - constructor.
Qed.

Lemma nullable_complete : forall r s, lang r s -> s = [] -> nullable r = true.
Proof.
  induction 1; simpl; intros E; try reflexivity; try discriminate.
  - apply app_eq_nil in E. destruct E. rewrite IHlang1, IHlang2; auto.
  - rewrite IHlang; auto.
  - rewrite IHlang, orb_true_r; auto.
Qed.

Lemma deriv_sound : forall r c s, lang (deriv c r) s -> lang r (c :: s).
Proof.
  induction r; simpl; intros c s H.
  - inversion H.
  - inversion H.
  - destruct (b c) eqn:E; inversion H; subst. constructor; assumption.
  - assert (Hcat : forall t, lang (Cat (deriv c r1) r2) t -> lang (Cat r1 r2) (c :: t)).
    { intros t Ht. inversion Ht; subst.
      apply (@lang_cat r1 r2 (c :: s1) s2); auto. }
    destruct (nullable r1) eqn:E.
    + inversion H; subst; auto.
      apply (@lang_cat r1 r2 [] (c :: s)); auto using nullable_sound.
    + auto.
  - inversion H; subst; [apply lang_alt_l | apply lang_alt_r]; auto.
  - inversion H; subst.
    apply (@lang_star_cons r (c :: s1) s2); auto.
Qed.

Lemma deriv_complete : forall r s, lang r s ->
  forall c t, s = c :: t -> lang (deriv c r) t.
Proof.
  induction 1; simpl; intros a t E; try discriminate.
  - injection E as E1 E2. subst. rewrite H. constructor.
  - destruct s1 as [|x s1'].
    + simpl in E. subst s2.
      rewrite (nullable_complete H eq_refl). apply lang_alt_r. eauto.
    + injection E as E1 E2. subst.
      assert (lang (Cat (deriv a r1) r2) (s1' ++ s2)) by (constructor; eauto).
      destruct (nullable r1); auto using lang_alt_l.
  - apply lang_alt_l; eauto.
  - apply lang_alt_r; eauto.
  - destruct s1 as [|x s1'].
    + simpl in E. eauto.
    + injection E as E1 E2. subst. constructor; eauto.
Qed.

Theorem accepts_lang : forall s r, accepts r s = true <-> lang r s.
Proof.
  induction s as [|c s IH]; simpl; intros r.
  - split; [apply nullable_sound | intros H; eapply nullable_complete; eauto].
  - rewrite IH. split; [apply deriv_sound | intros H; eapply deriv_complete; eauto].
Qed.

(** Inversion and construction for the shapes the script's pattern has. *)

Lemma lang_cat_inv : forall r1 r2 s, lang (Cat r1 r2) s ->
  exists s1 s2, s = s1 ++ s2 /\ lang r1 s1 /\ lang r2 s2.
Proof. intros r1 r2 s H. inversion H; subst. eauto. Qed.

Lemma lang_lit : forall t, lang (Lit t) t.
Proof.
  induction t as [|c t IH]; simpl.
  - constructor.
  - apply (@lang_cat _ _ [c] t); auto.
    constructor. apply N.eqb_refl.
Qed.

Lemma lang_lit_inv : forall t s, lang (Lit t) s -> s = t.
Proof.
  induction t as [|c t IH]; simpl; intros s H.
  - inversion H; reflexivity.
  - apply lang_cat_inv in H. destruct H as (s1 & s2 & -> & H1 & H2).
    inversion H1 as [|q x Hx| | | | |]; subst.
    apply N.eqb_eq in Hx. subst. simpl. f_equal. auto.
Qed.

Lemma lang_star_class : forall p s, all p s -> lang (Star (Class p)) s.
Proof.
  unfold all. induction s as [|c s IH]; simpl; intros H.
  - constructor.
  - apply andb_true_iff in H. destruct H.
    apply (@lang_star_cons _ [c] s); auto. constructor; auto.
Qed.

Lemma lang_star_class_inv : forall p r s, lang r s -> r = Star (Class p) -> all p s.
Proof.
  unfold all. induction 1; intros E; try discriminate.
  - reflexivity.
  - injection E as ->. inversion H as [|q c Hc| | | | |]; subst. simpl.
    rewrite Hc. simpl. auto.
Qed.

Lemma lang_plus_class : forall p s, s <> [] -> all p s -> lang (Plus (Class p)) s.
Proof.
  unfold all. intros p [|c s] Hne H; [congruence|]. simpl in H.
  apply andb_true_iff in H. destruct H. unfold Plus.
  apply (@lang_cat _ _ [c] s).
  - constructor; auto.
  - apply lang_star_class; auto.
Qed.

Lemma lang_plus_class_inv : forall p s, lang (Plus (Class p)) s -> s <> [] /\ all p s.
Proof.
  unfold Plus. intros p s H.
  apply lang_cat_inv in H. destruct H as (s1 & s2 & -> & H1 & H2).
  inversion H1 as [|q c Hc| | | | |]; subst.
  split; [discriminate|]. unfold all. simpl. rewrite Hc. simpl.
  eapply lang_star_class_inv; eauto.
Qed.

Lemma all_app : forall p s t, all p (s ++ t) <-> all p s /\ all p t.
Proof. unfold all. intros. rewrite forallb_app, andb_true_iff. tauto. Qed.

End ReFacts.

(* ================================================================== *)
(** ** Facts about the string methods *)

Module PyStrFacts.
Import PyStr Re ReFacts.

Lemma eqb_eq : forall a b, eqb a b = true <-> a = b.
Proof.
  induction a as [|x a IH]; destruct b as [|y b]; simpl; split; intros H;
    try reflexivity; try discriminate.
  - apply andb_true_iff in H. destruct H as [Hx Hr].
    apply N.eqb_eq in Hx. apply IH in Hr. congruence.
  - injection H as -> ->. rewrite N.eqb_refl. simpl. apply IH. reflexivity.
Qed.

Lemma startswith_spec : forall prefix s,
  startswith prefix s = true <-> exists rest, s = prefix ++ rest.
Proof.
  induction prefix as [|a prefix IH]; intros s; simpl.
  - split; eauto.
  - destruct s as [|b s].
    + split; [discriminate | intros [rest H]; discriminate].
    + rewrite andb_true_iff, N.eqb_eq, IH. split.
      * intros [-> [rest ->]]. eauto.
      * intros [rest H]. injection H as -> ->. eauto.
Qed.

Lemma contains_spec : forall sub s,
  contains sub s = true <-> exists before after, s = before ++ sub ++ after.
Proof.
  intros sub. induction s as [|c s IH]; simpl.
  - rewrite orb_false_r, startswith_spec. split.
    + intros [rest H]. exists [], rest. exact H.
    + intros (before & after & H). symmetry in H.
      apply app_eq_nil in H. destruct H as [-> H]. eauto.
  - rewrite orb_true_iff, startswith_spec, IH. split.
    + intros [[rest H] | (before & after & H)].
      * exists [], rest. exact H.
      * exists (c :: before), after. simpl. congruence.
    + intros ([|x before] & after & H).
      * left. eauto.
      * right. injection H as -> ->. eauto.
Qed.

Lemma contains_char : forall c s, contains [c] s = true <-> In c s.
Proof.
  intros c s. rewrite contains_spec. split.
  - intros (before & after & ->). apply in_or_app. right. left. reflexivity.
  - intros H. apply in_split in H. destruct H as (before & after & ->).
    exists before, after. reflexivity.
Qed.

Lemma not_contains_char : forall c s, negb (contains [c] s) = true <-> ~ In c s.
Proof.
  intros c s. rewrite negb_true_iff, <- contains_char.
  destruct (contains [c] s); split; congruence.
Qed.

Lemma all_rev : forall p s, all p s -> all p (rev s).
Proof.
  unfold all. intros p s H. rewrite forallb_forall in *.
  intros x Hx. apply H. apply in_rev. exact Hx.
Qed.

Lemma lstrip_spaces : forall ws s, all isspace ws -> lstrip (ws ++ s) = lstrip s.
Proof.
  unfold all. induction ws as [|c ws IH]; simpl; intros s H; [reflexivity|].
  apply andb_true_iff in H. destruct H as [Hc Hws]. rewrite Hc. auto.
Qed.

Lemma lstrip_split : forall s,
  exists ws, s = ws ++ lstrip s /\ all isspace ws.
Proof.
  unfold all. induction s as [|c s (ws & E & H)]; simpl.
  - exists []. split; reflexivity.
  - destruct (isspace c) eqn:Hc.
    + exists (c :: ws). simpl. rewrite Hc, H. split; [congruence | reflexivity].
    + exists []. split; reflexivity.
Qed.

Lemma strip_lone : forall c before after,
  isspace c = false -> all isspace before -> all isspace after ->
  strip (before ++ [c] ++ after) = [c].
Proof.
  intros c before after Hc Hb Ha. unfold strip, rstrip.
  rewrite lstrip_spaces by assumption. simpl. rewrite Hc. simpl.
  rewrite lstrip_spaces by (apply all_rev; assumption).
  simpl. rewrite Hc. reflexivity.
Qed.

Lemma strip_lone_inv : forall c s, strip s = [c] ->
  exists before after, s = before ++ [c] ++ after
    /\ all isspace before /\ all isspace after.
Proof.
  intros c s H. unfold strip, rstrip in H.
  destruct (lstrip_split s) as (before & Es & Hb).
  destruct (lstrip_split (rev (lstrip s))) as (ws & Er & Hw).
  assert (El : lstrip (rev (lstrip s)) = [c]).
  { rewrite <- (rev_involutive (lstrip (rev (lstrip s)))), H. reflexivity. }
  rewrite El in Er.
  assert (Et : lstrip s = c :: rev ws).
  { rewrite <- (rev_involutive (lstrip s)), Er, rev_app_distr. reflexivity. }
  exists before, (rev ws). split; [|split; auto using all_rev].
  rewrite Es at 1. rewrite Et. reflexivity.
Qed.

(** Splitting at a character loses no other character. *)
Lemma count_split : forall c sep s, c <> sep ->
  fold_right Z.add 0%Z (map (count c) (split sep s)) = count c s.
Proof.
  intros c sep s Hne. induction s as [|x s IH]; simpl; [reflexivity|].
  destruct (N.eqb x sep) eqn:Hx.
  - apply N.eqb_eq in Hx. subst x.
    assert (N.eqb sep c = false) as -> by (apply N.eqb_neq; congruence).
    simpl. exact IH.
  - destruct (split sep s) as [|piece pieces]; simpl in *; lia.
Qed.

(** A piece of a split holds no separator. *)
Lemma split_no_sep : forall sep s piece, In piece (split sep s) -> ~ In sep piece.
Proof.
  intros sep. induction s as [|c s IH]; simpl; intros piece Hin.
  - destruct Hin as [<-|[]]. intros [].
  - destruct (N.eqb c sep) eqn:Hc.
    + destruct Hin as [<-|Hin]; [intros []|auto].
    + destruct (split sep s) as [|first others].
      * destruct Hin as [<-|[]]. intros [->|[]]. rewrite N.eqb_refl in Hc. discriminate.
      * destruct Hin as [<-|Hin].
        -- intros [->|Hin]; [rewrite N.eqb_refl in Hc; discriminate|].
           apply (IH first); [left; reflexivity | exact Hin].
        -- apply IH. right. exact Hin.
Qed.

Lemma split_not_nil : forall sep s, split sep s <> [].
Proof.
  intros sep [|c s]; simpl; [discriminate|].
  destruct (N.eqb c sep); [discriminate|].
  destruct (split sep s); discriminate.
Qed.

End PyStrFacts.

(* ================================================================== *)
(** ** The scan, step by step *)

Section ScanFacts.
Import PyStr Re ReFacts PyStrFacts.

Variable isalnum : char -> bool.

(** On a line, which holds no newline, the script's pattern accepts exactly
    the function headers. *)
Lemma func_pattern_spec : forall line,
  ~ In NL line ->
  (match_dollar (func_pattern isalnum) line = true <-> func_header isalnum line).
Proof.
  intros line Hnl. unfold match_dollar. rewrite accepts_lang. split.
  - intros H.
    apply lang_cat_inv in H. destruct H as (body & tail & -> & Hb & Ht).
    unfold func_pattern in Hb.
    apply lang_cat_inv in Hb. destruct Hb as (indent & s1 & -> & Hi & Hb).
    apply lang_cat_inv in Hb. destruct Hb as (kw & s2 & -> & Hk & Hb).
    apply lang_cat_inv in Hb. destruct Hb as (gap & s3 & -> & Hg & Hb).
    apply lang_cat_inv in Hb. destruct Hb as (ident & s4 & -> & Hd & Hb).
    apply lang_cat_inv in Hb. destruct Hb as (rest & s5 & -> & Hr & Hb).
    apply lang_cat_inv in Hb. destruct Hb as (br & trail & -> & Ho & Hs).
    apply lang_lit_inv in Hk, Ho. subst kw br.
    apply lang_plus_class_inv in Hg, Hd.
    destruct Hg as [Hg1 Hg2]. destruct Hd as [Hd1 Hd2].
    exists indent, gap, ident, rest, (trail ++ tail).
    repeat split; auto.
    + repeat rewrite <- app_assoc. reflexivity.
    + eapply lang_star_class_inv; eauto.
    + apply all_app. split; [eapply lang_star_class_inv; eauto|].
      inversion Ht as [| | |r1 r2 s He|r1 r2 s Hn| |]; subst.
      * inversion He. reflexivity.
      * inversion Hn as [|p c Hc| | | | |]; subst.
        apply N.eqb_eq in Hc. subst c. reflexivity.
  - intros (indent & gap & ident & rest & trail & -> & Hi & Hg1 & Hg2 & Hd1 & Hd2 & Ht).
    assert (Hr : all dot rest).
    { apply forallb_forall. intros c Hc. unfold dot. apply negb_true_iff.
      apply N.eqb_neq. intros ->. apply Hnl.
      rewrite !in_app_iff. tauto. }
    rewrite <- (app_nil_r (indent ++ _)).
    apply lang_cat; [|apply lang_alt_l; constructor].
    unfold func_pattern.
    repeat (apply lang_cat;
            auto using lang_star_class, lang_plus_class, lang_lit).
Qed.

(** The script's test of the next line holds exactly for a lone closing
    brace. *)
Lemma lone_closing_brace_spec : forall line,
  eqb (strip line) [close_brace] = true <-> lone_closing_brace line.
Proof.
  intros line. rewrite eqb_eq. split.
  - intros H. apply strip_lone_inv in H. exact H.
  - intros (before & after & -> & Hb & Ha). apply strip_lone; auto.
Qed.

Lemma append_issues : forall msg st, issues (append msg st) = issues st ++ [msg].
Proof. reflexivity. Qed.

Lemma append_counter : forall k msg st, counter k (append msg st) = counter k st.
Proof. destruct k; reflexivity. Qed.

Lemma scan_line_issues : forall lines i line st,
  issues (scan_line isalnum lines i line st)
  = issues st ++ map render (line_findings isalnum lines i line).
Proof.
  intros. unfold scan_line, line_findings, fires, render.
  destruct (contains marker line); destruct (contains [open_brace] line);
    destruct (i <? List.length lines)%nat;
    destruct (contains [open_brace] (nth i lines []));
    destruct (match_dollar (func_pattern isalnum) line);
    destruct (eqb (strip (nth i lines [])) [close_brace]);
    cbn [andb negb filter map fst snd line_message issues append app];
    rewrite ?app_nil_r, <- ?app_assoc; reflexivity.
Qed.

Lemma scan_line_counter : forall k lines i line st,
  counter k (scan_line isalnum lines i line st) = (counter k st + balance k line)%Z.
Proof.
  intros. unfold scan_line.
  destruct (contains marker line); destruct (contains [open_brace] line);
    destruct (i <? List.length lines)%nat;
    destruct (contains [open_brace] (nth i lines []));
    destruct (match_dollar (func_pattern isalnum) line);
    destruct (eqb (strip (nth i lines [])) [close_brace]);
    cbn [andb negb]; rewrite ?append_counter; destruct k; reflexivity.
Qed.

Lemma scan_lines_issues : forall lines todo i st,
  issues (scan_lines isalnum lines i todo st)
  = issues st ++ map render (findings_from isalnum lines i todo).
Proof.
  intros lines. induction todo as [|line todo IH]; intros i st; simpl.
  - rewrite app_nil_r. reflexivity.
  - rewrite IH, scan_line_issues, map_app, app_assoc. reflexivity.
Qed.

Lemma scan_lines_counter : forall k lines todo i st,
  counter k (scan_lines isalnum lines i todo st)
  = (counter k st + lines_balance k todo)%Z.
Proof.
  intros k lines. induction todo as [|line todo IH]; intros i st; simpl.
  - lia.
  - rewrite IH, scan_line_counter. lia.
Qed.

Lemma lines_balance_split : forall k content,
  lines_balance k (split NL content) = balance k content.
Proof.
  intros k content. unfold balance.
  rewrite <- (@count_split (opener k) NL content) by (destruct k; discriminate).
  rewrite <- (@count_split (closer k) NL content) by (destruct k; discriminate).
  induction (split NL content) as [|line rest IH]; simpl; [reflexivity|].
  rewrite IH. unfold balance. lia.
Qed.

(** What the final checks add, from the counters they read. *)
Lemma final_counts_issues : forall st,
  issues (final_counts st)
  = issues st
    ++ flat_map (fun k => if (counter k st =? 0)%Z then []
                          else [balance_message k (counter k st)]) kinds.
Proof.
  intros st. unfold final_counts, kinds, flat_map, counter.
  destruct (brace_count st =? 0)%Z;
    cbn [append issues brace_count paren_count bracket_count];
    destruct (paren_count st =? 0)%Z;
    cbn [append issues brace_count paren_count bracket_count];
    destruct (bracket_count st =? 0)%Z;
    cbn [append issues brace_count paren_count bracket_count app];
    rewrite ?app_nil_r, <- ?app_assoc; reflexivity.
Qed.

(** The issues of a text: the reports of the line checks in the order of
    the scan, then the issues of the three final checks. *)
Lemma scan_text_shape : forall content,
  scan_text isalnum content
  = map render (findings_from isalnum (split NL content) 1 (split NL content))
    ++ flat_map (fun k => balance_issue k content) kinds.
Proof.
  intros content. unfold scan_text.
  rewrite final_counts_issues, scan_lines_issues.
  change (issues init_state) with (@nil str). rewrite app_nil_l.
  f_equal. apply flat_map_ext. intros k. unfold balance_issue.
  rewrite scan_lines_counter, lines_balance_split.
  replace (counter k init_state) with 0%Z by (destruct k; reflexivity).
  reflexivity.
Qed.

End ScanFacts.

(* ================================================================== *)
(** ** What the line checks report, and how the messages are told apart *)

Section FindingFacts.
Import PyStr Re ReFacts PyStrFacts.

Variable isalnum : char -> bool.

Lemma in_line_findings : forall lines i line n h,
  In (n, h) (line_findings isalnum lines i line)
  <-> n = i /\ fires isalnum lines i line h = true.
Proof.
  intros. unfold line_findings. rewrite in_map_iff. split.
  - intros (h' & E & Hin). injection E as -> ->.
    apply filter_In in Hin. tauto.
  - intros [-> Hf]. exists h. split; [reflexivity|].
    apply filter_In. split; [destruct h; simpl; auto | exact Hf].
Qed.

Lemma in_findings_from : forall lines todo i n h,
  In (n, h) (findings_from isalnum lines i todo)
  <-> exists line, nth_error todo (n - i) = Some line /\ (i <= n)%nat
                   /\ fires isalnum lines n line h = true.
Proof.
  intros lines. induction todo as [|line todo IH]; intros i n h; simpl.
  - split; [tauto|]. intros (l & H & _). destruct (n - i)%nat; discriminate.
  - rewrite in_app_iff, in_line_findings, IH. split.
    + intros [[-> Hf] | (l & Hn & Hle & Hf)].
      * exists line. rewrite Nat.sub_diag. auto.
      * exists l. replace (n - i)%nat with (S (n - S i)) by lia. auto with arith.
    + intros (l & Hn & Hle & Hf).
      destruct (Nat.eq_dec n i) as [->|Hne].
      * rewrite Nat.sub_diag in Hn. injection Hn as ->. auto.
      * right. exists l. replace (n - i)%nat with (S (n - S i)) in Hn by lia.
        split; [exact Hn | split; [lia | exact Hf]].
Qed.

(** A check reports only a line that has a successor. *)
Lemma fires_has_next : forall lines i line h,
  fires isalnum lines i line h = true -> (i < List.length lines)%nat.
Proof.
  intros lines i line h H. apply Nat.ltb_lt.
  destruct h; simpl in H; repeat (apply andb_true_iff in H; destruct H as [H ?]);
    assumption.
Qed.

Lemma sorted_same_then_later : forall i (hs : list heuristic) later,
  StronglySorted le later -> Forall (le i) later ->
  StronglySorted le (map fst (map (pair i) hs) ++ later).
Proof.
  intros i hs later Hs Hl. induction hs as [|h hs IH]; simpl; [exact Hs|].
  constructor; [exact IH|].
  apply Forall_app. split; [|exact Hl].
  apply Forall_forall. intros x Hx.
  apply in_map_iff in Hx. destruct Hx as ([a b] & <- & Hx).
  apply in_map_iff in Hx. destruct Hx as (h' & E & _). injection E as <- _.
  simpl. lia.
Qed.

Lemma findings_from_lower_bound : forall lines todo i,
  Forall (le i) (map fst (findings_from isalnum lines i todo)).
Proof.
  intros. apply Forall_forall. intros n Hn.
  apply in_map_iff in Hn. destruct Hn as ([m h] & <- & Hin).
  apply in_findings_from in Hin. destruct Hin as (_ & _ & Hle & _). exact Hle.
Qed.

Lemma findings_from_sorted : forall lines todo i,
  StronglySorted le (map fst (findings_from isalnum lines i todo)).
Proof.
  intros lines. induction todo as [|line todo IH]; intros i; simpl.
  - constructor.
  - rewrite map_app. unfold line_findings. apply sorted_same_then_later.
    + apply IH.
    + eapply Forall_impl; [|apply findings_from_lower_bound].
      simpl. intros. lia.
Qed.

Lemma render_is_line_issue : forall f, is_line_issue (render f) = true.
Proof. intros [n [|]]; reflexivity. Qed.

Lemma render_not_balance_issue : forall k f, is_balance_issue k (render f) = false.
Proof. intros [| |] [n [|]]; reflexivity. Qed.

Lemma balance_message_not_line_issue : forall k n,
  is_line_issue (balance_message k n) = false.
Proof. intros [| |] n; reflexivity. Qed.

Lemma balance_message_kind : forall k k' n,
  is_balance_issue k (balance_message k' n) = true <-> k = k'.
Proof.
  intros [| |] [| |] n; split; intros H; try reflexivity; try discriminate H.
Qed.

(** The braces, parentheses and brackets messages of the script are the
    balance messages of the three kinds. *)
Lemma balance_message_script : forall n,
  balance_message Brace n = braces_message n
  /\ balance_message Parenthesis n = parentheses_message n
  /\ balance_message Bracket n = brackets_message n.
Proof. intros n. repeat split; reflexivity. Qed.

Lemma filter_all_false : forall (A : Type) (p : A -> bool) l,
  (forall x, In x l -> p x = false) -> filter p l = [].
Proof.
  intros A p. induction l as [|x l IH]; simpl; intros H; [reflexivity|].
  rewrite (H x) by auto. apply IH. auto.
Qed.

Lemma filter_balance_issues : forall k content,
  filter (is_balance_issue k) (flat_map (fun k' => balance_issue k' content) kinds)
  = balance_issue k content.
Proof.
  intros k content. unfold kinds, flat_map, balance_issue.
  destruct k;
    destruct (balance Brace content =? 0)%Z;
    destruct (balance Parenthesis content =? 0)%Z;
    destruct (balance Bracket content =? 0)%Z; reflexivity.
Qed.

End FindingFacts.

(* ================================================================== *)
(** ** Properties of the scanner *)

Section ScannerProperties.
Import PyStr Re ReFacts PyStrFacts.

Variable isalnum : char -> bool.

Lemma line_and_next : forall (lines : list str) n next,
  nth_error lines (S n) = Some next ->
  (S n <? List.length lines)%nat = true /\ nth (S n) lines [] = next.
Proof.
  intros lines n next H. split.
  - apply Nat.ltb_lt. apply nth_error_Some. congruence.
  - apply nth_error_nth. exact H.
Qed.

Lemma finding_reported : forall content n line h,
  nth_error (split NL content) n = Some line ->
  fires isalnum (split NL content) (S n) line h = true ->
  In (line_message h (S n)) (scan_text isalnum content).
Proof.
  intros content n line h Hn Hf. rewrite scan_text_shape.
  apply in_or_app. left.
  change (line_message h (S n)) with (render (S n, h)). apply in_map.
  apply in_findings_from. exists line.
  replace (S n - 1)%nat with n by lia. repeat split; auto with arith.
Qed.

(** C3, as the code has it.  When a line of the text is a function header
    (optional white space, [func], white space, an identifier, any
    characters, an opening brace, optional white space) and the line after it
    is a closing brace with only white space around it, the scanner emits
    "Line N: Function appears to have empty body" where N is the 1-based
    number of the header line, the line before the closing brace. *)
Theorem empty_body_reported_at_header : forall content n line next,
  nth_error (split NL content) n = Some line ->
  nth_error (split NL content) (S n) = Some next ->
  func_header isalnum line ->
  lone_closing_brace next ->
  In (lit "Line " ++ format_nat (S n) ++ lit ": Function appears to have empty body")
     (scan_text isalnum content).
Proof.
  intros content n line next Hline Hnext Hhead Hclose.
  apply (@finding_reported content n line EmptyBody Hline).
  destruct (line_and_next _ _ Hnext) as [Hlt Hnth].
  simpl. rewrite Hlt, Hnth.
  apply func_pattern_spec in Hhead;
    [|apply (@split_no_sep NL content); eapply nth_error_In; exact Hline].
  rewrite Hhead. simpl.
  apply lone_closing_brace_spec. exact Hclose.
Qed.

(** C4.  When a line of the text contains [DispatchQueue.main.async] and no
    opening brace, and the next line exists and has no opening brace either,
    the scanner emits "Line N: DispatchQueue.main.async might be missing
    opening brace" where N is the 1-based number of the line with the
    marker. *)
Theorem dangling_async_reported : forall content n line next,
  nth_error (split NL content) n = Some line ->
  nth_error (split NL content) (S n) = Some next ->
  has_marker line ->
  ~ has_open_brace line ->
  ~ has_open_brace next ->
  In (lit "Line " ++ format_nat (S n)
        ++ lit ": DispatchQueue.main.async might be missing opening brace")
     (scan_text isalnum content).
Proof.
  intros content n line next Hline Hnext Hmark Hno Hno'.
  apply (@finding_reported content n line DanglingAsync Hline).
  destruct (line_and_next _ _ Hnext) as [Hlt Hnth].
  simpl. rewrite Hlt, Hnth.
  apply contains_spec in Hmark. apply not_contains_char in Hno, Hno'.
  rewrite Hmark, Hno, Hno'. reflexivity.
Qed.

(** C5.  Among the issues of a text, those of the final check of a bracket
    kind are: none when the text has as many openers as closers of that
    kind, and otherwise exactly one, "Mismatched <kind>: <n> extra opening
    <kind>" where n is openers minus closers, printed with its sign when it
    is negative.  In particular a text with one more opening than closing
    brace has the issue "Mismatched braces: 1 extra opening braces". *)
Theorem one_issue_per_nonzero_counter : forall content,
  (forall k,
     filter (is_balance_issue k) (scan_text isalnum content)
     = if (balance k content =? 0)%Z then []
       else [lit "Mismatched " ++ plural k ++ lit ": " ++ format_int (balance k content)
               ++ lit " extra opening " ++ plural k])
  /\ (balance Brace content = 1%Z ->
      In (lit "Mismatched braces: 1 extra opening braces") (scan_text isalnum content)).
Proof.
  intros content.
  assert (Hk : forall k, filter (is_balance_issue k) (scan_text isalnum content)
                         = balance_issue k content).
  { intros k. rewrite scan_text_shape, filter_app, filter_balance_issues.
    rewrite filter_all_false; [reflexivity|].
    intros msg Hin. apply in_map_iff in Hin. destruct Hin as (f & <- & _).
    apply render_not_balance_issue. }
  split.
  - intros k. rewrite Hk. reflexivity.
  - intros H1.
    assert (Hin : In (lit "Mismatched braces: 1 extra opening braces")
                     (filter (is_balance_issue Brace) (scan_text isalnum content))).
    { rewrite Hk. unfold balance_issue. rewrite H1. left. reflexivity. }
    apply filter_In in Hin. tauto.
Qed.

(** C6.  When the text has as many [{] as [}], as many [(] as [)] and as
    many [[] as []], no issue of the scanner is a balance message of any of
    the three kinds. *)
Theorem balanced_text_has_no_balance_issue : forall content,
  count open_brace content = count close_brace content ->
  count open_paren content = count close_paren content ->
  count open_bracket content = count close_bracket content ->
  forall msg, In msg (scan_text isalnum content) ->
  forall k, is_balance_issue k msg = false.
Proof.
  intros content Hb Hp Hk msg Hin k.
  rewrite scan_text_shape in Hin. apply in_app_or in Hin. destruct Hin as [Hin|Hin].
  - apply in_map_iff in Hin. destruct Hin as (f & <- & _).
    apply render_not_balance_issue.
  - exfalso. unfold kinds, flat_map, balance_issue, balance in Hin. simpl in Hin.
    rewrite Hb, Hp, Hk, !Z.sub_diag in Hin. simpl in Hin. exact Hin.
Qed.

(** C9.  Every issue of the scanner that starts with "Line " is one of the
    two line messages for a number N with 1 <= N and N + 1 <= the number of
    lines of the text: the line it cites has a successor. *)
Theorem line_issue_number_in_range : forall content msg,
  In msg (scan_text isalnum content) ->
  is_line_issue msg = true ->
  exists N : nat,
    (1 <= N /\ N + 1 <= List.length (split NL content))%nat
    /\ (msg = lit "Line " ++ format_nat N
                ++ lit ": DispatchQueue.main.async might be missing opening brace"
        \/ msg = lit "Line " ++ format_nat N
                   ++ lit ": Function appears to have empty body").
Proof.
  intros content msg Hin Hline.
  rewrite scan_text_shape in Hin. apply in_app_or in Hin. destruct Hin as [Hin|Hin].
  - apply in_map_iff in Hin. destruct Hin as ([N h] & <- & Hin).
    apply in_findings_from in Hin. destruct Hin as (line & _ & Hle & Hf).
    apply fires_has_next in Hf.
    exists N. split; [lia|]. destruct h; [left | right]; reflexivity.
  - exfalso. apply in_flat_map in Hin. destruct Hin as (k & _ & Hin).
    unfold balance_issue in Hin.
    destruct (balance k content =? 0)%Z; [exact Hin|].
    destruct Hin as [<- | []].
    rewrite balance_message_not_line_issue in Hline. discriminate.
Qed.

(** C10.  The issues of a text are the reports of the line checks, in the
    order of the scan and so in nondecreasing order of the line they were
    detected at, followed by the issue of the brace check, then of the
    parenthesis check, then of the bracket check, each of which is at most
    one issue. *)
Theorem issues_are_ordered : forall content,
  let found := findings_from isalnum (split NL content) 1 (split NL content) in
  scan_text isalnum content
  = map (fun f => line_message (snd f) (fst f)) found
    ++ balance_issue Brace content
    ++ balance_issue Parenthesis content
    ++ balance_issue Bracket content
  /\ Sorted le (map fst found)
  /\ forall k, (List.length (balance_issue k content) <= 1)%nat.
Proof.
  intros content found. split; [|split].
  - rewrite scan_text_shape. unfold kinds, flat_map. rewrite app_nil_r. reflexivity.
  - apply StronglySorted_Sorted. apply findings_from_sorted.
  - intros k. unfold balance_issue.
    destruct (balance k content =? 0)%Z; simpl; lia.
Qed.

End ScannerProperties.

(* ================================================================== *)
(** ** The driver, file by file *)

Section DriverFacts.
Import TextIO IO.

Variable isalnum : char -> bool.

Lemma bind_outcome : forall (A B : Type) (m : io A) (k : A -> io B),
  outcome (bind m k)
  = match outcome m with
    | inl e => inl e
    | inr a => outcome (k a)
    end.
Proof. intros A B [out [e|a]] k; reflexivity. Qed.

Lemma bind_stdout : forall (A B : Type) (m : io A) (k : A -> io B),
  stdout (bind m k)
  = stdout m ++ match outcome m with
                | inl _ => []
                | inr a => stdout (k a)
                end.
Proof.
  intros A B [out [e|a]] k; simpl; [rewrite app_nil_r|]; reflexivity.
Qed.

Lemma io_eq : forall (A : Type) (m m' : io A),
  stdout m = stdout m' -> outcome m = outcome m' -> m = m'.
Proof. intros A [o r] [o' r']; simpl; congruence. Qed.

Lemma bind_assoc : forall (A B C : Type) (m : io A) (f : A -> io B) (g : B -> io C),
  bind (bind m f) g = bind m (fun a => bind (f a) g).
Proof.
  intros. apply io_eq.
  - rewrite !bind_stdout, !bind_outcome. destruct (outcome m) as [e|a].
    + rewrite app_nil_r. reflexivity.
    + rewrite bind_stdout, app_assoc. reflexivity.
  - rewrite !bind_outcome. destruct (outcome m) as [e|a]; [reflexivity|].
    rewrite bind_outcome. reflexivity.
Qed.

Lemma print_then_outcome : forall (A : Type) line (k : io A),
  outcome (print line ;;; k) = outcome k.
Proof. intros. rewrite bind_outcome. reflexivity. Qed.

Lemma print_then_stdout : forall (A : Type) line (k : io A),
  stdout (print line ;;; k) = line :: stdout k.
Proof. intros. rewrite bind_stdout. reflexivity. Qed.

Lemma lift_return_bind : forall (A B : Type) (a : A) (k : A -> io B),
  bind (lift (inr a)) k = k a.
Proof. intros. unfold bind, lift. destruct (k a). reflexivity. Qed.

Lemma lift_raise_bind : forall (A B : Type) e (k : A -> io B),
  bind (lift (inl e)) k = ([], inl e).
Proof. reflexivity. Qed.

Lemma print_issues_outcome : forall found, outcome (print_issues found) = inr tt.
Proof.
  induction found as [|issue rest IH]; [reflexivity|].
  cbn [print_issues]. rewrite bind_outcome. exact IH.
Qed.

Lemma check_one_outcome : forall fs p total,
  outcome (check_one isalnum fs p total)
  = if path_exists fs p then
      match check_swift_file isalnum fs p with
      | inl e => inl e
      | inr found => inr (total + Z.of_nat (List.length found))%Z
      end
    else inr total.
Proof.
  intros. unfold check_one. destruct (path_exists fs p); [|reflexivity].
  rewrite print_then_outcome.
  destruct (check_swift_file isalnum fs p) as [e|[|issue rest]].
  - reflexivity.
  - rewrite lift_return_bind, print_then_outcome. simpl. rewrite Z.add_0_r.
    reflexivity.
  - rewrite lift_return_bind, print_then_outcome, bind_outcome, print_issues_outcome.
    reflexivity.
Qed.

(** What the body of the loop prints does not depend on the total so far. *)
Lemma check_one_stdout : forall fs p total,
  stdout (check_one isalnum fs p total) = stdout (check_one isalnum fs p 0%Z).
Proof.
  intros. unfold check_one. destruct (path_exists fs p); [|reflexivity].
  rewrite !print_then_stdout. f_equal.
  destruct (check_swift_file isalnum fs p) as [e|[|issue rest]]; try reflexivity.
  rewrite !lift_return_bind, !print_then_stdout. f_equal.
  rewrite !bind_stdout, print_issues_outcome. reflexivity.
Qed.

Lemma check_one_from_zero : forall fs p total,
  outcome (check_one isalnum fs p total)
  = add_to total (outcome (check_one isalnum fs p 0%Z)).
Proof.
  intros. rewrite !check_one_outcome. destruct (path_exists fs p); simpl.
  - destruct (check_swift_file isalnum fs p); reflexivity.
  - rewrite Z.add_0_r. reflexivity.
Qed.

Lemma check_one_count : forall fs p total,
  readable fs p ->
  outcome (check_one isalnum fs p total) = inr (total + issue_count isalnum fs p)%Z.
Proof.
  intros fs p total Hr. rewrite check_one_outcome. unfold issue_count.
  unfold readable in Hr. destruct (path_exists fs p).
  - destruct (Hr eq_refl) as (content & Hc). unfold check_swift_file. rewrite Hc.
    reflexivity.
  - rewrite Z.add_0_r. reflexivity.
Qed.

Lemma check_files_total : forall fs files total,
  (forall p, In p files -> readable fs p) ->
  outcome (check_files isalnum fs files total)
  = inr (total + issues_total isalnum fs files)%Z.
Proof.
  intros fs. induction files as [|p files IH]; intros total Hr.
  - simpl. rewrite Z.add_0_r. reflexivity.
  - cbn [check_files]. rewrite bind_outcome, check_one_count by (apply Hr; left; reflexivity).
    rewrite IH by (intros q Hq; apply Hr; right; exact Hq).
    unfold issues_total. simpl. f_equal. lia.
Qed.

Lemma bind_ext : forall (A B : Type) (m : io A) (f g : A -> io B),
  (forall a, f a = g a) -> bind m f = bind m g.
Proof. intros A B [out [e|a]] f g H; unfold bind; [|rewrite H]; reflexivity. Qed.

Lemma check_files_app : forall fs pre post total,
  check_files isalnum fs (pre ++ post) total
  = bind (check_files isalnum fs pre total) (fun t => check_files isalnum fs post t).
Proof.
  intros fs. induction pre as [|p pre IH]; intros post total.
  - symmetry. exact (lift_return_bind total (fun t => check_files isalnum fs post t)).
  - cbn [app check_files]. rewrite bind_assoc. apply bind_ext. intros t. apply IH.
Qed.

End DriverFacts.

Section RunFacts.
Import TextIO IO.

Variable isalnum : char -> bool.

Lemma run_outcome : forall fs files,
  outcome (run isalnum fs files)
  = match outcome (check_files isalnum fs files 0%Z) with
    | inl e => inl e
    | inr total => inr (if (total =? 0)%Z then 0%Z else 1%Z)
    end.
Proof.
  intros. unfold run. rewrite print_then_outcome, bind_outcome.
  destruct (outcome (check_files isalnum fs files 0%Z)) as [e|total]; [reflexivity|].
  rewrite !print_then_outcome.
  destruct (total =? 0)%Z; rewrite print_then_outcome; reflexivity.
Qed.

Lemma run_stdout : forall fs files,
  stdout (run isalnum fs files)
  = banner_line
    :: stdout (check_files isalnum fs files 0%Z)
    ++ match outcome (check_files isalnum fs files 0%Z) with
       | inl _ => []
       | inr total =>
           summary_lines (files_checked fs files) total
           ++ [if (total =? 0)%Z then all_passed_line
               else lit "  " ++ warning_sign ++ lit "  Some issues found - please review"]
       end.
Proof.
  intros. unfold run. rewrite print_then_stdout, bind_stdout.
  destruct (outcome (check_files isalnum fs files 0%Z)) as [e|total]; [reflexivity|].
  rewrite !print_then_stdout.
  destruct (total =? 0)%Z; rewrite print_then_stdout; reflexivity.
Qed.

Lemma check_one_absent : forall fs p total,
  fs p = None -> check_one isalnum fs p total = ([not_found_line p], inr total).
Proof.
  intros fs p total H. unfold check_one, path_exists. rewrite H. reflexivity.
Qed.

Lemma check_one_raises : forall fs p total e,
  path_exists fs p = true -> read_text fs p = inl e ->
  check_one isalnum fs p total = ([checking_line p], inl e).
Proof.
  intros fs p total e Hex Hread. unfold check_one, check_swift_file.
  rewrite Hex, Hread. reflexivity.
Qed.

Lemma check_files_absent : forall fs files total,
  (forall p, In p files -> fs p = None) ->
  check_files isalnum fs files total = (map not_found_line files, inr total).
Proof.
  intros fs. induction files as [|p files IH]; intros total H; [reflexivity|].
  cbn [check_files map]. rewrite check_one_absent by (apply H; left; reflexivity).
  unfold bind. rewrite IH by (intros q Hq; apply H; right; exact Hq). reflexivity.
Qed.

Lemma files_checked_absent : forall fs files,
  (forall p, In p files -> fs p = None) -> files_checked fs files = 0%nat.
Proof.
  intros fs files H. unfold files_checked. rewrite filter_all_false; [reflexivity|].
  intros p Hp. unfold path_exists. rewrite (H p Hp). reflexivity.
Qed.

(** The first file that cannot be read ends the loop, right after the line
    that announces it. *)
Lemma check_files_raises : forall fs pre p post total e,
  (forall q, In q pre -> readable fs q) ->
  path_exists fs p = true -> read_text fs p = inl e ->
  check_files isalnum fs (pre ++ p :: post) total
  = (stdout (check_files isalnum fs pre total) ++ [checking_line p], inl e).
Proof.
  intros fs pre p post total e Hpre Hex Hread. rewrite check_files_app.
  apply io_eq.
  - rewrite bind_stdout, check_files_total by exact Hpre.
    cbn [check_files]. rewrite (check_one_raises _ _ _ Hex Hread). reflexivity.
  - rewrite bind_outcome, check_files_total by exact Hpre.
    cbn [check_files]. rewrite (check_one_raises _ _ _ Hex Hread). reflexivity.
Qed.

Lemma check_files_last : forall fs pre p total,
  (forall q, In q pre -> readable fs q) ->
  stdout (check_files isalnum fs (pre ++ [p]) total)
  = stdout (check_files isalnum fs pre total) ++ stdout (check_one isalnum fs p 0%Z)
  /\ outcome (check_files isalnum fs (pre ++ [p]) total)
     = add_to (total + issues_total isalnum fs pre) (outcome (check_one isalnum fs p 0%Z)).
Proof.
  intros fs pre p total Hpre. rewrite check_files_app. split.
  - rewrite bind_stdout, check_files_total by exact Hpre.
    cbn [check_files]. rewrite bind_stdout, check_one_stdout. f_equal.
    destruct (outcome (check_one isalnum fs p _)); apply app_nil_r.
  - rewrite bind_outcome, check_files_total by exact Hpre.
    cbn [check_files]. rewrite bind_outcome, check_one_from_zero.
    destruct (outcome (check_one isalnum fs p 0%Z)); reflexivity.
Qed.

End RunFacts.

(* ================================================================== *)
(** ** Properties of the driver *)

Section DriverProperties.
Import PyStr TextIO IO.

Variable isalnum : char -> bool.

Lemma issues_total_zero : forall fs files,
  (forall p, In p files -> issue_count isalnum fs p = 0%Z) ->
  issues_total isalnum fs files = 0%Z.
Proof.
  intros fs. unfold issues_total.
  induction files as [|p files IH]; intros H; simpl; [reflexivity|].
  rewrite (H p) by (left; reflexivity).
  rewrite IH by (intros q Hq; apply H; right; exact Hq). reflexivity.
Qed.

Lemma issue_count_absent : forall fs p, fs p = None -> issue_count isalnum fs p = 0%Z.
Proof. intros fs p H. unfold issue_count, path_exists. rewrite H. reflexivity. Qed.

Lemma returns_then_readable : forall fs files total total',
  outcome (check_files isalnum fs files total) = inr total' ->
  forall p, In p files -> readable fs p.
Proof.
  intros fs. induction files as [|q files IH]; intros total total' H p Hin.
  - destruct Hin.
  - cbn [check_files] in H. rewrite bind_outcome in H.
    destruct (outcome (check_one isalnum fs q total)) as [e|t] eqn:Hq; [discriminate|].
    destruct Hin as [<-|Hin]; [|eapply IH; eauto].
    intros Hex. rewrite check_one_outcome, Hex in Hq. unfold check_swift_file in Hq.
    destruct (read_text fs q) as [e|content]; [discriminate|]. eauto.
Qed.

Lemma main_returns : forall fs,
  (forall p, In p modified_files -> readable fs p) ->
  outcome (main isalnum fs)
  = inr (if (issues_total isalnum fs modified_files =? 0)%Z then 0%Z else 1%Z).
Proof.
  intros fs Hr. unfold main. rewrite run_outcome, check_files_total by exact Hr.
  reflexivity.
Qed.

Lemma unreadable_then_raises : forall fs files total p e,
  In p files -> path_exists fs p = true -> read_text fs p = inl e ->
  exists e', outcome (check_files isalnum fs files total) = inl e'.
Proof.
  intros fs files total p e Hin Hex Hread.
  destruct (outcome (check_files isalnum fs files total)) as [e'|t] eqn:Hl; [eauto|].
  exfalso. destruct (@returns_then_readable fs files total t Hl p Hin Hex) as (content & Hc).
  congruence.
Qed.

(** C1, as the code has it.  In a run in which every listed file that
    exists can be read, the loop ends with the sum of the issue counts of the
    files that exist, and the exit status is 0 when that total is 0 and 1
    otherwise.  A file that is absent adds nothing to the total: when every
    listed file is absent or free of issues, the status is 0.  In a run in
    which some listed file exists and cannot be read, the status is 1
    whatever was counted. *)
Theorem exit_status_follows_total : forall fs,
  ((forall p, In p modified_files -> readable fs p) ->
   outcome (check_files isalnum fs modified_files 0%Z)
   = inr (issues_total isalnum fs modified_files)
   /\ outcome (main isalnum fs)
      = inr (if (issues_total isalnum fs modified_files =? 0)%Z then 0%Z else 1%Z)
   /\ exit_status isalnum fs
      = (if (issues_total isalnum fs modified_files =? 0)%Z then 0%Z else 1%Z))
  /\ (forall p, fs p = None -> issue_count isalnum fs p = 0%Z)
  /\ ((forall p, In p modified_files ->
         fs p = None \/ check_swift_file isalnum fs p = inr []) ->
      exit_status isalnum fs = 0%Z)
  /\ (forall p e,
        In p modified_files -> path_exists fs p = true -> read_text fs p = inl e ->
        exit_status isalnum fs = 1%Z).
Proof.
  intros fs.
  assert (Hexit : exit_status isalnum fs
                  = match outcome (check_files isalnum fs modified_files 0%Z) with
                    | inl _ => 1%Z
                    | inr total => if (total =? 0)%Z then 0%Z else 1%Z
                    end).
  { unfold exit_status, main. rewrite run_outcome.
    destruct (outcome (check_files isalnum fs modified_files 0%Z)); reflexivity. }
  assert (Hloop : (forall p, In p modified_files -> readable fs p) ->
                  outcome (check_files isalnum fs modified_files 0%Z)
                  = inr (issues_total isalnum fs modified_files)).
  { intros Hr. rewrite check_files_total by exact Hr. reflexivity. }
  split; [|split; [|split]].
  - intros Hr. split; [exact (Hloop Hr) | split].
    + exact (main_returns Hr).
    + rewrite Hexit, (Hloop Hr). reflexivity.
  - apply issue_count_absent.
  - intros Hclean.
    assert (Hr : forall p, In p modified_files -> readable fs p).
    { intros p Hp Hex. destruct (Hclean p Hp) as [Hnone|Hok].
      - unfold path_exists in Hex. rewrite Hnone in Hex. discriminate.
      - unfold check_swift_file in Hok.
        destruct (read_text fs p) as [e|content]; [discriminate|eauto]. }
    rewrite Hexit, (Hloop Hr), issues_total_zero; [reflexivity|].
    intros p Hp. destruct (Hclean p Hp) as [Hnone|Hok].
    + apply issue_count_absent. exact Hnone.
    + unfold issue_count. rewrite Hok. destruct (path_exists fs p); reflexivity.
  - intros p e Hp Hex Hread.
    destruct (unreadable_then_raises fs modified_files 0%Z p Hp Hex Hread) as (e' & He).
    rewrite Hexit, He. reflexivity.
Qed.

(** C2, as the code has it.  Only the absence of a listed file is handled:
    the driver prints a "File not found" line for it, leaves the total as it
    was and goes on.  An error in reading a file that exists is not caught:
    at the first such file the run ends with that exception, the last line
    printed is the one that announces the file, no summary follows and the
    interpreter's status is 1.  The run ends with a returned code exactly
    when every listed file that exists can be read. *)
Theorem only_absence_is_handled : forall fs,
  (forall p total, fs p = None ->
     check_one isalnum fs p total = ([not_found_line p], inr total))
  /\ (forall pre p post e,
        modified_files = pre ++ p :: post ->
        (forall q, In q pre -> readable fs q) ->
        path_exists fs p = true ->
        read_text fs p = inl e ->
        outcome (main isalnum fs) = inl e
        /\ exit_status isalnum fs = 1%Z
        /\ stdout (main isalnum fs)
           = banner_line :: stdout (check_files isalnum fs pre 0%Z) ++ [checking_line p])
  /\ ((exists code, outcome (main isalnum fs) = inr code)
      <-> forall p, In p modified_files -> readable fs p).
Proof.
  intros fs. split; [|split].
  - intros p total H. apply check_one_absent. exact H.
  - intros pre p post e Hfiles Hpre Hex Hread.
    assert (Hloop : check_files isalnum fs modified_files 0%Z
                    = (stdout (check_files isalnum fs pre 0%Z) ++ [checking_line p], inl e)).
    { rewrite Hfiles. apply check_files_raises; assumption. }
    assert (Hmain : outcome (main isalnum fs) = inl e).
    { unfold main. rewrite run_outcome, Hloop. reflexivity. }
    split; [exact Hmain | split].
    + unfold exit_status. rewrite Hmain. reflexivity.
    + unfold main. rewrite run_stdout, Hloop. simpl. rewrite app_nil_r. reflexivity.
  - split.
    + intros [code H]. unfold main in H. rewrite run_outcome in H.
      destruct (outcome (check_files isalnum fs modified_files 0%Z)) as [e|t] eqn:Hl;
        [discriminate|].
      eapply returns_then_readable. exact Hl.
    + intros Hr. eexists. apply (main_returns Hr).
Qed.

(** C7.  When every path of the file list is absent, the loop ends with a
    total of 0, [main] returns 0 and so does the process, and the report is
    the banner, one "File not found" line per path, and a summary that says
    "Files checked: 0" and "Total issues: 0". *)
Theorem all_files_absent : forall fs,
  (forall p, In p modified_files -> fs p = None) ->
  outcome (check_files isalnum fs modified_files 0%Z) = inr 0%Z
  /\ outcome (main isalnum fs) = inr 0%Z
  /\ exit_status isalnum fs = 0%Z
  /\ stdout (main isalnum fs)
     = banner_line :: map not_found_line modified_files
       ++ [ [NL; 0x1F4CA]%N ++ lit " Validation Summary:";
            lit "  " ++ [bullet] ++ lit " Files checked: 0";
            lit "  " ++ [bullet] ++ lit " Total issues: 0";
            all_passed_line ].
Proof.
  intros fs H.
  pose proof (@check_files_absent isalnum fs modified_files 0%Z H) as Hloop.
  assert (Hmain : outcome (main isalnum fs) = inr 0%Z).
  { unfold main. rewrite run_outcome, Hloop. reflexivity. }
  repeat split.
  - rewrite Hloop. reflexivity.
  - exact Hmain.
  - unfold exit_status. rewrite Hmain. reflexivity.
  - unfold main. rewrite run_stdout, Hloop, files_checked_absent by exact H.
    reflexivity.
Qed.

End DriverProperties.

(* ================================================================== *)
(** ** The properties on concrete texts and file systems *)

Section Runs.
Import PyStr Re TextIO IO Samples PyStrFacts.

(** Goes through the paths of the file list one by one. *)
Ltac each_listed_file :=
  let p := fresh "p" in
  let H := fresh "H" in
  intros p H; unfold modified_files in H; simpl in H;
  repeat (destruct H as [H|H]; [subst p|]); try contradiction.

Ltac readable_here :=
  let Hex := fresh "Hex" in
  unfold readable; intros Hex;
  first [ vm_compute in Hex; discriminate Hex
        | eexists; vm_compute; reflexivity ].

Lemma exit_status_follows_total_witness :
  (forall p, In p modified_files -> readable one_issue_fs p)
  /\ issues_total ascii_alnum one_issue_fs modified_files = 1%Z
  /\ outcome (check_files ascii_alnum one_issue_fs modified_files 0%Z)
     = inr (issues_total ascii_alnum one_issue_fs modified_files)
  /\ outcome (main ascii_alnum one_issue_fs)
     = inr (if (issues_total ascii_alnum one_issue_fs modified_files =? 0)%Z
            then 0%Z else 1%Z)
  /\ exit_status ascii_alnum one_issue_fs
     = (if (issues_total ascii_alnum one_issue_fs modified_files =? 0)%Z
        then 0%Z else 1%Z).
Proof.
  assert (Hr : forall p, In p modified_files -> readable one_issue_fs p)
    by (each_listed_file; readable_here).
  split; [exact Hr | split; [vm_compute; reflexivity|]].
  exact (proj1 (@exit_status_follows_total ascii_alnum one_issue_fs) Hr).
Defined.

(** C1 fails on the code: with a first file that is there and is not
    UTF-8, nothing is counted and no issue is printed (the total is 0), yet
    the run ends with status 1. *)
Lemma unreadable_file_status_one_total_zero :
  In first_file modified_files
  /\ path_exists undecodable_fs first_file = true
  /\ stdout (main ascii_alnum undecodable_fs) = [banner_line; checking_line first_file]
  /\ issues_total ascii_alnum undecodable_fs modified_files = 0%Z
  /\ exit_status ascii_alnum undecodable_fs = 1%Z.
Proof.
  repeat split; try (vm_compute; reflexivity).
  left. reflexivity.
Qed.

(** C2 fails on the code: a listed file that is there and holds a byte
    that is not UTF-8 makes [main] raise [UnicodeDecodeError].  The run prints
    the banner and the line announcing the file, then ends: no line reports
    the error and there is no summary.  A directory at a listed path ends the
    run the same way. *)
Lemma undecodable_file_ends_the_run :
  In first_file modified_files
  /\ path_exists undecodable_fs first_file = true
  /\ read_text undecodable_fs first_file = inl UnicodeDecodeError
  /\ main ascii_alnum undecodable_fs
     = ([banner_line; checking_line first_file], inl UnicodeDecodeError)
  /\ main ascii_alnum directory_fs
     = ([banner_line; checking_line first_file], inl IsADirectoryError).
Proof.
  repeat split; try (vm_compute; reflexivity).
  left. reflexivity.
Qed.

Lemma only_absence_is_handled_witness :
  outcome (main ascii_alnum undecodable_fs) = inl UnicodeDecodeError
  /\ exit_status ascii_alnum undecodable_fs = 1%Z
  /\ stdout (main ascii_alnum undecodable_fs)
     = banner_line :: stdout (check_files ascii_alnum undecodable_fs [] 0%Z)
       ++ [checking_line first_file].
Proof.
  apply (proj1 (proj2 (@only_absence_is_handled ascii_alnum undecodable_fs))
           [] first_file (tl modified_files) UnicodeDecodeError).
  - reflexivity.
  - intros q [].
  - vm_compute. reflexivity.
  - vm_compute. reflexivity.
Defined.

(** C3 fails on the code: for a header on line 1 and a lone closing brace
    on line 2 the only issue is "Line 1: ...", so the issue cites the header
    line and none cites line 2, the line of the closing brace. *)
Lemma empty_body_cites_the_header_line :
  nth_error (split NL empty_func) 0 = Some (lit "func f() {")
  /\ nth_error (split NL empty_func) 1 = Some (lit "}")
  /\ func_header ascii_alnum (lit "func f() {")
  /\ lone_closing_brace (lit "}")
  /\ scan_text ascii_alnum empty_func
     = [lit "Line 1: Function appears to have empty body"]
  /\ ~ In (lit "Line 2: Function appears to have empty body")
          (scan_text ascii_alnum empty_func).
Proof.
  split; [reflexivity | split; [reflexivity | split; [|split; [|split]]]].
  - apply func_pattern_spec; [apply not_contains_char|]; vm_compute; reflexivity.
  - exists [], []. repeat split.
  - vm_compute. reflexivity.
  - vm_compute. intros [H|[]]. discriminate H.
Qed.

Lemma empty_body_reported_at_header_witness :
  In (lit "Line " ++ format_nat 1 ++ lit ": Function appears to have empty body")
     (scan_text ascii_alnum empty_func).
Proof.
  apply (@empty_body_reported_at_header ascii_alnum empty_func 0
           (lit "func f() {") (lit "}")).
  - reflexivity.
  - reflexivity.
  - apply func_pattern_spec; [apply not_contains_char|]; vm_compute; reflexivity.
  - exists [], []. repeat split.
Defined.

Lemma dangling_async_reported_witness :
  In (lit "Line " ++ format_nat 1
        ++ lit ": DispatchQueue.main.async might be missing opening brace")
     (scan_text ascii_alnum dangling_async).
Proof.
  apply (@dangling_async_reported ascii_alnum dangling_async 0
           (lit "  DispatchQueue.main.async") (lit "  foo()")).
  - reflexivity.
  - reflexivity.
  - exists (lit "  "), []. reflexivity.
  - apply not_contains_char. vm_compute. reflexivity.
  - apply not_contains_char. vm_compute. reflexivity.
Defined.

Lemma one_issue_per_nonzero_counter_witness :
  balance Brace one_open_brace = 1%Z
  /\ In (lit "Mismatched braces: 1 extra opening braces")
        (scan_text ascii_alnum one_open_brace)
  /\ filter (is_balance_issue Brace) (scan_text ascii_alnum two_closers)
     = [lit "Mismatched braces: -2 extra opening braces"].
Proof.
  split; [reflexivity | split].
  - apply (proj2 (@one_issue_per_nonzero_counter ascii_alnum one_open_brace)).
    reflexivity.
  - rewrite (proj1 (@one_issue_per_nonzero_counter ascii_alnum two_closers) Brace).
    vm_compute. reflexivity.
Defined.

Lemma balanced_text_has_no_balance_issue_witness :
  is_balance_issue Brace (lit "Line 1: Function appears to have empty body") = false.
Proof.
  apply (@balanced_text_has_no_balance_issue ascii_alnum empty_func).
  - reflexivity.
  - reflexivity.
  - reflexivity.
  - vm_compute. left. reflexivity.
Defined.

Lemma all_files_absent_witness :
  outcome (check_files ascii_alnum empty_fs modified_files 0%Z) = inr 0%Z
  /\ outcome (main ascii_alnum empty_fs) = inr 0%Z
  /\ exit_status ascii_alnum empty_fs = 0%Z
  /\ stdout (main ascii_alnum empty_fs)
     = banner_line :: map not_found_line modified_files
       ++ [ [NL; 0x1F4CA]%N ++ lit " Validation Summary:";
            lit "  " ++ [bullet] ++ lit " Files checked: 0";
            lit "  " ++ [bullet] ++ lit " Total issues: 0";
            all_passed_line ].
Proof.
  apply (@all_files_absent ascii_alnum empty_fs). intros p _. reflexivity.
Defined.

Lemma line_issue_number_in_range_witness :
  exists N : nat,
    (1 <= N /\ N + 1 <= List.length (split NL empty_func))%nat
    /\ (lit "Line 1: Function appears to have empty body"
        = lit "Line " ++ format_nat N
            ++ lit ": DispatchQueue.main.async might be missing opening brace"
        \/ lit "Line 1: Function appears to have empty body"
           = lit "Line " ++ format_nat N
               ++ lit ": Function appears to have empty body").
Proof.
  apply (@line_issue_number_in_range ascii_alnum empty_func).
  - vm_compute. left. reflexivity.
  - reflexivity.
Defined.

(** One file that is there, with an empty function and a brace imbalance
    of 2: the file has two issues, they are the total, and the status is 1. *)
Example two_issues_in_one_file :
  scan_text ascii_alnum two_issues
  = [ lit "Line 1: Function appears to have empty body";
      lit "Mismatched braces: 2 extra opening braces" ]
  /\ files_checked two_issues_fs modified_files = 1%nat
  /\ outcome (check_files ascii_alnum two_issues_fs modified_files 0%Z) = inr 2%Z
  /\ outcome (main ascii_alnum two_issues_fs) = inr 1%Z
  /\ exit_status ascii_alnum two_issues_fs = 1%Z.
Proof. repeat split; vm_compute; reflexivity. Qed.

End Runs.

(* ================================================================== *)
(** ** The messages determine what they report *)

Section FormatFacts.
Import PyStr.

Lemma lit_inj : forall a b, lit a = lit b -> a = b.
Proof.
  unfold lit. intros a b H.
  rewrite <- (string_of_list_ascii_of_string a), <- (string_of_list_ascii_of_string b).
  f_equal. revert H.
  generalize (list_ascii_of_string a) (list_ascii_of_string b).
  induction l as [|x l IH]; intros [|y l'] H; try discriminate; [reflexivity|].
  simpl in H. injection H as Hxy Hl.
  f_equal; [|apply IH; exact Hl].
  rewrite <- (ascii_N_embedding x), <- (ascii_N_embedding y), Hxy. reflexivity.
Qed.

Lemma to_int_not_nil : forall z,
  Z.to_int z <> Decimal.Pos Decimal.Nil /\ Z.to_int z <> Decimal.Neg Decimal.Nil.
Proof.
  intros [|p|p]; simpl; split; try discriminate; intros H; injection H as H;
    exact (DecimalPos.Unsigned.to_uint_nonnil p H).
Qed.

(** Two numbers that print alike are the same number. *)
Lemma format_int_inj : forall a b, format_int a = format_int b -> a = b.
Proof.
  unfold format_int. intros a b H. apply lit_inj in H.
  destruct (to_int_not_nil a) as [Ha1 Ha2]. destruct (to_int_not_nil b) as [Hb1 Hb2].
  pose proof (NilZero.isi _ Ha1 Ha2) as Ia. pose proof (NilZero.isi _ Hb1 Hb2) as Ib.
  rewrite H, Ib in Ia. injection Ia as Ia.
  rewrite <- (DecimalZ.of_to a), <- (DecimalZ.of_to b), Ia. reflexivity.
Qed.

Lemma format_nat_inj : forall m n, format_nat m = format_nat n -> m = n.
Proof.
  unfold format_nat. intros m n H. apply format_int_inj in H. lia.
Qed.

Lemma uint_digits : forall d,
  forallb isdigit (lit (NilEmpty.string_of_uint d)) = true.
Proof. induction d; simpl; auto. Qed.

Lemma format_nat_digits : forall n, forallb isdigit (format_nat n) = true.
Proof.
  intros n. unfold format_nat, format_int.
  destruct (Z.of_nat n) as [|p|p] eqn:E; try lia.
  - reflexivity.
  - simpl. unfold NilZero.string_of_uint.
    destruct (Pos.to_uint p) eqn:Ep; try reflexivity; rewrite <- Ep; apply uint_digits.
Qed.

(** After a run of digits, the first colon is where the digits end. *)
Lemma digits_then_colon : forall a b x y,
  forallb isdigit a = true -> forallb isdigit b = true ->
  a ++ 58%N :: x = b ++ 58%N :: y -> a = b /\ x = y.
Proof.
  induction a as [|c a IH]; intros [|d b] x y Ha Hb H; simpl in *.
  - injection H as ->. auto.
  - injection H as <- _. discriminate.
  - injection H as -> _. discriminate.
  - injection H as -> H.
    apply andb_true_iff in Ha, Hb. destruct Ha as [_ Ha]. destruct Hb as [_ Hb].
    destruct (IH b x y Ha Hb H) as [-> ->]. auto.
Qed.

Lemma render_inj : forall f g, render f = render g -> f = g.
Proof.
  intros [m h] [n h'] H. unfold render, line_message in H. simpl fst in H. simpl snd in H.
  assert (Hd : forall x y, lit "Line " ++ format_nat m ++ 58%N :: x
                 = lit "Line " ++ format_nat n ++ 58%N :: y -> m = n /\ x = y).
  { intros x y E. apply app_inv_head in E.
    apply digits_then_colon in E; auto using format_nat_digits.
    destruct E as [E ->]. apply format_nat_inj in E. auto. }
  destruct h, h'; unfold async_message, empty_body_message in H;
    apply Hd in H; destruct H as [-> H]; try reflexivity; discriminate H.
Qed.

End FormatFacts.

(* ================================================================== *)
(** ** Lines, counts and pieces *)

Module PyStrCounts.
Import PyStr PyStrFacts.

Lemma next_line_exists : forall (lines : list str) n,
  (n <? List.length lines)%nat = true -> nth_error lines n = Some (nth n lines []).
Proof.
  intros lines n H. apply Nat.ltb_lt in H. apply nth_error_nth'. exact H.
Qed.

Lemma count_nonneg : forall c s, (0 <= count c s)%Z.
Proof.
  intros c. induction s as [|x s IH]; simpl; [lia|]. destruct (N.eqb x c); lia.
Qed.

(** A text has one line more than it has newlines. *)
Lemma split_length : forall sep s,
  List.length (split sep s) = S (Z.to_nat (count sep s)).
Proof.
  intros sep. induction s as [|c s IH]; [reflexivity|].
  pose proof (count_nonneg sep s) as Hnn.
  cbn [split count]. destruct (N.eqb c sep) eqn:Hc.
  - cbn [List.length]. rewrite IH. lia.
  - replace (0 + count sep s)%Z with (count sep s) by lia. rewrite <- IH.
    destruct (split sep s) as [|piece pieces]; [discriminate IH | reflexivity].
Qed.

Lemma count_permutation : forall c s s', Permutation s s' -> count c s = count c s'.
Proof.
  intros c s s' H. induction H; simpl; lia.
Qed.

Lemma count_absent : forall c s, ~ In c s -> count c s = 0%Z.
Proof.
  intros c. induction s as [|x s IH]; simpl; intros H; [reflexivity|].
  destruct (N.eqb x c) eqn:E.
  - apply N.eqb_eq in E. subst. tauto.
  - rewrite IH; tauto.
Qed.

(** The first piece of a split starts the text, and every piece is a part
    of it. *)
Lemma split_first_prefix : forall sep s first others,
  split sep s = first :: others -> exists after, s = first ++ after.
Proof.
  intros sep. induction s as [|c s IH]; simpl; intros first others H.
  - injection H as <- _. exists []. reflexivity.
  - destruct (N.eqb c sep).
    + injection H as <- _. exists (c :: s). reflexivity.
    + destruct (split sep s) as [|piece pieces] eqn:E.
      * injection H as <- _. exists s. reflexivity.
      * injection H as <- _. destruct (IH piece pieces eq_refl) as (after & ->).
        exists after. reflexivity.
Qed.

Lemma split_piece_within : forall sep s piece,
  In piece (split sep s) -> exists before after, s = before ++ piece ++ after.
Proof.
  intros sep. induction s as [|c s IH]; simpl; intros piece Hin.
  - destruct Hin as [<-|[]]. exists [], []. reflexivity.
  - destruct (N.eqb c sep).
    + destruct Hin as [<-|Hin].
      * exists [], (c :: s). reflexivity.
      * destruct (IH piece Hin) as (before & after & ->).
        exists (c :: before), after. reflexivity.
    + destruct (split sep s) as [|first others] eqn:E.
      * destruct Hin as [<-|[]]. exists [], s. reflexivity.
      * destruct Hin as [<-|Hin].
        -- destruct (split_first_prefix _ _ E) as (after & ->).
           exists [], after. reflexivity.
        -- destruct (IH piece (or_intror Hin)) as (before & after & ->).
           exists (c :: before), after. reflexivity.
Qed.

End PyStrCounts.

(* ================================================================== *)
(** ** When the scanner reports, and how often *)

Section ReportFacts.
Import PyStr Re ReFacts PyStrFacts PyStrCounts.

Variable isalnum : char -> bool.

(** A line message is among the issues exactly when its check reports
    that line. *)
Lemma line_issue_iff : forall content n h,
  In (line_message h n) (scan_text isalnum content)
  <-> exists line,
        (1 <= n)%nat
        /\ nth_error (split NL content) (n - 1) = Some line
        /\ fires isalnum (split NL content) n line h = true.
Proof.
  intros content n h. rewrite scan_text_shape, in_app_iff. split.
  - intros [Hin|Hin].
    + apply in_map_iff in Hin. destruct Hin as (f & Hf & Hin).
      change (line_message h n) with (render (n, h)) in Hf.
      apply render_inj in Hf. subst f.
      apply in_findings_from in Hin. destruct Hin as (line & Hn & Hle & Hf).
      exists line. auto.
    + exfalso. apply in_flat_map in Hin. destruct Hin as (k & _ & Hin).
      unfold balance_issue in Hin. destruct (balance k content =? 0)%Z; [exact Hin|].
      destruct Hin as [Hin|[]].
      pose proof (render_is_line_issue (n, h)) as Hl. unfold render in Hl. simpl in Hl.
      rewrite <- Hin, balance_message_not_line_issue in Hl. discriminate.
  - intros (line & Hle & Hn & Hf). left.
    change (line_message h n) with (render (n, h)). apply in_map.
    apply in_findings_from. exists line. auto.
Qed.

(** A line the pattern accepts has an opening brace. *)
Lemma pattern_needs_brace : forall line,
  match_dollar (func_pattern isalnum) line = true -> contains [open_brace] line = true.
Proof.
  intros line H. unfold match_dollar in H. apply accepts_lang in H.
  apply lang_cat_inv in H. destruct H as (body & tail & -> & Hb & _).
  unfold func_pattern in Hb.
  apply lang_cat_inv in Hb. destruct Hb as (indent & s1 & -> & _ & Hb).
  apply lang_cat_inv in Hb. destruct Hb as (kw & s2 & -> & _ & Hb).
  apply lang_cat_inv in Hb. destruct Hb as (gap & s3 & -> & _ & Hb).
  apply lang_cat_inv in Hb. destruct Hb as (ident & s4 & -> & _ & Hb).
  apply lang_cat_inv in Hb. destruct Hb as (rest & s5 & -> & _ & Hb).
  apply lang_cat_inv in Hb. destruct Hb as (br & trail & -> & Ho & _).
  apply lang_lit_inv in Ho. subst br.
  apply contains_char. rewrite !in_app_iff. simpl. tauto.
Qed.

(** The two checks never report the same line, and no check reports the
    last line. *)
Lemma line_findings_cases : forall lines i line,
  line_findings isalnum lines i line = []
  \/ (exists h, line_findings isalnum lines i line = [(i, h)])
     /\ (i < List.length lines)%nat.
Proof.
  intros lines i line. unfold line_findings, fires. cbn [filter].
  destruct (i <? List.length lines)%nat eqn:Hi.
  - apply Nat.ltb_lt in Hi.
    destruct (match_dollar (func_pattern isalnum) line) eqn:Hm.
    + rewrite (pattern_needs_brace _ Hm). rewrite andb_false_r. cbn [andb negb].
      destruct (eqb (strip (nth i lines [])) [close_brace]); cbn [map]; eauto.
    + cbn [andb].
      destruct (contains marker line && negb (contains [open_brace] line) && true
                && negb (contains [open_brace] (nth i lines []))); cbn [map]; eauto.
  - rewrite !andb_false_r. cbn [andb]. auto.
Qed.

Lemma findings_strictly_sorted : forall lines todo i,
  StronglySorted lt (map fst (findings_from isalnum lines i todo)).
Proof.
  intros lines. induction todo as [|line todo IH]; intros i; cbn [findings_from].
  - constructor.
  - destruct (line_findings_cases lines i line) as [->|[[h ->] _]]; cbn [app map fst].
    + apply IH.
    + constructor; [apply IH|].
      eapply Forall_impl; [|apply (findings_from_lower_bound isalnum lines todo (S i))].
      simpl. intros. lia.
Qed.

Lemma findings_count : forall lines todo i,
  (List.length (findings_from isalnum lines i todo) <= List.length todo
   /\ List.length (findings_from isalnum lines i todo) <= List.length lines - i)%nat.
Proof.
  intros lines. induction todo as [|line todo IH]; intros i; cbn [findings_from].
  - simpl. lia.
  - rewrite length_app. specialize (IH (S i)).
    destruct (line_findings_cases lines i line) as [->|[[h ->] Hi]];
      cbn [List.length]; lia.
Qed.

(** What the filter of a kind's balance messages leaves of the issues. *)
Lemma filter_scan_text : forall k content,
  filter (is_balance_issue k) (scan_text isalnum content) = balance_issue k content.
Proof.
  intros k content. rewrite scan_text_shape, filter_app, filter_balance_issues.
  rewrite filter_all_false; [reflexivity|].
  intros msg Hin. apply in_map_iff in Hin. destruct Hin as (f & <- & _).
  apply render_not_balance_issue.
Qed.

Lemma filter_line_issues : forall content,
  filter is_line_issue (scan_text isalnum content)
  = map render (findings_from isalnum (split NL content) 1 (split NL content)).
Proof.
  intros content. rewrite scan_text_shape, filter_app.
  rewrite (filter_all_false is_line_issue (flat_map _ kinds)).
  - rewrite app_nil_r. apply forallb_filter_id. apply forallb_forall.
    intros msg Hin. apply in_map_iff in Hin. destruct Hin as (f & <- & _).
    apply render_is_line_issue.
  - intros msg Hin. apply in_flat_map in Hin. destruct Hin as (k & _ & Hin).
    unfold balance_issue in Hin. destruct (balance k content =? 0)%Z; [destruct Hin|].
    destruct Hin as [<-|[]]. apply balance_message_not_line_issue.
Qed.

Lemma balance_issues_count : forall content,
  (List.length (flat_map (fun k => balance_issue k content) kinds) <= 3)%nat.
Proof.
  intros content. unfold kinds, flat_map, balance_issue.
  destruct (balance Brace content =? 0)%Z; destruct (balance Parenthesis content =? 0)%Z;
    destruct (balance Bracket content =? 0)%Z; simpl; lia.
Qed.

Lemma balance_issues_nodup : forall content,
  NoDup (flat_map (fun k => balance_issue k content) kinds).
Proof.
  intros content. unfold kinds, flat_map, balance_issue.
  assert (Hne : forall k k' a b, k <> k' -> balance_message k a <> balance_message k' b).
  { intros k k' a b Hk E.
    assert (H : is_balance_issue k (balance_message k' b) = true)
      by (rewrite <- E; apply balance_message_kind; reflexivity).
    apply balance_message_kind in H. contradiction. }
  destruct (balance Brace content =? 0)%Z; destruct (balance Parenthesis content =? 0)%Z;
    destruct (balance Bracket content =? 0)%Z; cbn [app];
    repeat constructor; simpl; intuition;
    match goal with H : balance_message _ _ = balance_message _ _ |- _ =>
      revert H; apply Hne; discriminate end.
Qed.

End ReportFacts.

(* ================================================================== *)
(** ** Further properties of the scanner *)

Section ScannerCoverage.
Import PyStr Re ReFacts PyStrFacts PyStrCounts.

Variable isalnum : char -> bool.

Lemma has_next_iff : forall (lines : list str) n (P : str -> Prop),
  ((n <? List.length lines)%nat = true /\ P (nth n lines []))
  <-> exists next, nth_error lines n = Some next /\ P next.
Proof.
  intros lines n P. split.
  - intros [Hlt HP]. exists (nth n lines []). split; [|exact HP].
    apply next_line_exists. exact Hlt.
  - intros (next & Hn & HP). split.
    + apply Nat.ltb_lt. apply nth_error_Some. congruence.
    + rewrite (nth_error_nth _ _ _ Hn). exact HP.
Qed.

Lemma fires_async_iff : forall lines n line,
  fires isalnum lines n line DanglingAsync = true
  <-> has_marker line /\ ~ has_open_brace line
      /\ exists next, nth_error lines n = Some next /\ ~ has_open_brace next.
Proof.
  intros lines n line. unfold fires.
  rewrite !andb_true_iff, contains_spec, !not_contains_char.
  rewrite <- (has_next_iff lines n (fun next => ~ has_open_brace next)).
  unfold has_marker, has_open_brace. tauto.
Qed.

Lemma fires_empty_body_iff : forall lines n line,
  ~ In NL line ->
  (fires isalnum lines n line EmptyBody = true
   <-> func_header isalnum line
       /\ exists next, nth_error lines n = Some next /\ lone_closing_brace next).
Proof.
  intros lines n line Hnl. unfold fires.
  rewrite !andb_true_iff, (@func_pattern_spec isalnum line Hnl), lone_closing_brace_spec.
  rewrite <- (has_next_iff lines n lone_closing_brace). tauto.
Qed.

(** X3.  The asynchronous-dispatch issue for line N is among the issues of a
    text exactly when line N has the marker and no opening brace, and line
    N + 1 exists and has no opening brace.  So a brace anywhere on either
    line silences the check, and the last line is never reported. *)
Theorem async_issue_iff : forall content n,
  In (lit "Line " ++ format_nat n
        ++ lit ": DispatchQueue.main.async might be missing opening brace")
     (scan_text isalnum content)
  <-> exists line next,
        (1 <= n)%nat
        /\ nth_error (split NL content) (n - 1) = Some line
        /\ nth_error (split NL content) n = Some next
        /\ has_marker line
        /\ ~ has_open_brace line
        /\ ~ has_open_brace next.
Proof.
  intros content n.
  change (lit "Line " ++ format_nat n
            ++ lit ": DispatchQueue.main.async might be missing opening brace")
    with (line_message DanglingAsync n).
  rewrite line_issue_iff. split.
  - intros (line & Hle & Hn & Hf). apply fires_async_iff in Hf.
    destruct Hf as (Hm & Hb & next & Hnext & Hb').
    exists line, next. repeat split; assumption.
  - intros (line & next & Hle & Hn & Hnext & Hm & Hb & Hb').
    exists line. repeat split; auto. apply fires_async_iff. eauto.
Qed.

(** X4.  The empty-body issue for line N is among the issues of a text exactly
    when line N is a function header and line N + 1 exists and is a lone
    closing brace. *)
Theorem empty_body_issue_iff : forall content n,
  In (lit "Line " ++ format_nat n ++ lit ": Function appears to have empty body")
     (scan_text isalnum content)
  <-> exists line next,
        (1 <= n)%nat
        /\ nth_error (split NL content) (n - 1) = Some line
        /\ nth_error (split NL content) n = Some next
        /\ func_header isalnum line
        /\ lone_closing_brace next.
Proof.
  intros content n.
  change (lit "Line " ++ format_nat n ++ lit ": Function appears to have empty body")
    with (line_message EmptyBody n).
  rewrite line_issue_iff. split.
  - intros (line & Hle & Hn & Hf).
    apply fires_empty_body_iff in Hf;
      [|apply (@split_no_sep NL content); eapply nth_error_In; exact Hn].
    destruct Hf as (Hh & next & Hnext & Hc). exists line, next.
    repeat split; assumption.
  - intros (line & next & Hle & Hn & Hnext & Hh & Hc).
    exists line. repeat split; auto.
    apply fires_empty_body_iff;
      [apply (@split_no_sep NL content); eapply nth_error_In; exact Hn | eauto].
Qed.

(** X6.  No line gets both line issues; the line issues are at most as many as
    the newlines of the text, so a text of one line gets none; and a text
    never gets more issues than it has newlines, plus three. *)
Theorem reports_are_bounded : forall content,
  (forall n,
     ~ (In (lit "Line " ++ format_nat n
              ++ lit ": DispatchQueue.main.async might be missing opening brace")
           (scan_text isalnum content)
        /\ In (lit "Line " ++ format_nat n
                 ++ lit ": Function appears to have empty body")
              (scan_text isalnum content)))
  /\ (List.length (filter is_line_issue (scan_text isalnum content))
      <= Z.to_nat (count NL content))%nat
  /\ (List.length (scan_text isalnum content)
      <= Z.to_nat (count NL content) + 3)%nat.
Proof.
  intros content.
  pose proof (findings_count isalnum (split NL content) (split NL content) 1) as [_ Hc].
  rewrite split_length in Hc.
  split; [|split].
  - intros n [Ha He].
    change (lit "Line " ++ format_nat n
              ++ lit ": DispatchQueue.main.async might be missing opening brace")
      with (line_message DanglingAsync n) in Ha.
    change (lit "Line " ++ format_nat n ++ lit ": Function appears to have empty body")
      with (line_message EmptyBody n) in He.
    apply line_issue_iff in Ha, He.
    destruct Ha as (line & _ & Hn & Ha). destruct He as (line' & _ & Hn' & He).
    rewrite Hn in Hn'. injection Hn' as <-.
    simpl in Ha, He. repeat (apply andb_true_iff in Ha; destruct Ha as [Ha ?]).
    repeat (apply andb_true_iff in He; destruct He as [He ?]).
    apply pattern_needs_brace in He.
    match goal with H : negb (contains [open_brace] line) = true |- _ =>
      rewrite He in H; discriminate H end.
  - rewrite filter_line_issues, length_map. lia.
  - rewrite scan_text_shape, length_app, length_map.
    pose proof (balance_issues_count content). lia.
Qed.

(** X7.  No issue is listed twice. *)
Theorem issues_are_distinct : forall content, NoDup (scan_text isalnum content).
Proof.
  intros content. rewrite scan_text_shape. apply NoDup_app.
  - apply Finite.Injective_map_NoDup.
    + intros f g. apply render_inj.
    + apply (NoDup_map_inv fst).
      pose proof (findings_strictly_sorted isalnum (split NL content) (split NL content) 1)
        as Hs.
      induction Hs as [|a l Hs IH Hall]; constructor; [|exact IH].
      intros Hin. rewrite Forall_forall in Hall. specialize (Hall a Hin). lia.
  - apply balance_issues_nodup.
  - intros msg Hl Hb.
    apply in_map_iff in Hl. destruct Hl as (f & <- & _).
    apply in_flat_map in Hb. destruct Hb as (k & _ & Hb).
    unfold balance_issue in Hb. destruct (balance k content =? 0)%Z; [exact Hb|].
    destruct Hb as [Hb|[]].
    pose proof (render_is_line_issue f) as Hr.
    rewrite <- Hb, balance_message_not_line_issue in Hr. discriminate.
Qed.

(** X8.  A text with none of the six bracket characters and without the marker
    has no issues; the empty text is one such. *)
Theorem plain_text_has_no_issues : forall content,
  (forall c, In c content -> is_bracket c = false) ->
  contains marker content = false ->
  scan_text isalnum content = [].
Proof.
  intros content Hplain Hmark.
  assert (Hno : forall c, is_bracket c = true -> ~ In c content).
  { intros c Hc Hin. rewrite (Hplain c Hin) in Hc. discriminate. }
  assert (Hquiet : forall todo i,
             (forall line, In line todo -> In line (split NL content)) ->
             findings_from isalnum (split NL content) i todo = []).
  { induction todo as [|line todo IH]; intros i Hsub; [reflexivity|].
    cbn [findings_from]. rewrite IH by (intros l Hl; apply Hsub; right; exact Hl).
    rewrite app_nil_r.
    destruct (split_piece_within NL content line (Hsub line (or_introl eq_refl)))
      as (before & after & E).
    unfold line_findings, fires. cbn [filter].
    assert (contains marker line = false) as ->.
    { destruct (contains marker line) eqn:Hc; [|reflexivity].
      apply contains_spec in Hc. destruct Hc as (b & a & ->).
      assert (contains marker content = true); [|congruence].
      apply contains_spec. exists (before ++ b), (a ++ after).
      rewrite E, <- !app_assoc. reflexivity. }
    assert (match_dollar (func_pattern isalnum) line = false) as ->.
    { destruct (match_dollar (func_pattern isalnum) line) eqn:Hm; [|reflexivity].
      apply pattern_needs_brace, contains_char in Hm.
      exfalso. apply (Hno open_brace eq_refl). rewrite E, !in_app_iff. tauto. }
    reflexivity. }
  rewrite scan_text_shape, Hquiet by auto.
  unfold kinds, flat_map, balance_issue, balance. cbn [opener closer].
  assert (Hz : forall c, is_bracket c = true -> count c content = 0%Z).
  { intros c Hc. apply count_absent. intros Hin. exact (Hno c Hc Hin). }
  rewrite (Hz open_brace eq_refl), (Hz close_brace eq_refl), (Hz open_paren eq_refl),
    (Hz close_paren eq_refl), (Hz open_bracket eq_refl), (Hz close_bracket eq_refl).
  reflexivity.
Qed.

(** X9.  The final checks count characters and nothing else: two texts with the
    same characters in any order get the same balance issues, so a closer
    that comes before its opener is not noticed. *)
Theorem balance_issues_ignore_order : forall content content',
  Permutation content content' ->
  forall k,
    filter (is_balance_issue k) (scan_text isalnum content)
    = filter (is_balance_issue k) (scan_text isalnum content').
Proof.
  intros content content' Hp k. rewrite !filter_scan_text.
  unfold balance_issue, balance.
  rewrite (count_permutation (opener k) Hp), (count_permutation (closer k) Hp).
  reflexivity.
Qed.

Lemma fires_local : forall lines lines' n line h,
  nth_error lines n = nth_error lines' n ->
  fires isalnum lines n line h = fires isalnum lines' n line h.
Proof.
  intros lines lines' n line h H.
  assert (Hn : (n <? List.length lines)%nat = (n <? List.length lines')%nat
               /\ ((n <? List.length lines)%nat = true ->
                   nth n lines [] = nth n lines' [])).
  { destruct (nth_error lines n) as [next|] eqn:E.
    - symmetry in H. split.
      + transitivity true; [|symmetry]; apply Nat.ltb_lt, nth_error_Some; congruence.
      + intros _. rewrite (nth_error_nth _ _ _ E), (nth_error_nth _ _ _ H). reflexivity.
    - symmetry in H. apply nth_error_None in E, H. split.
      + transitivity false; [|symmetry]; apply Nat.ltb_ge; assumption.
      + intros Hlt. apply Nat.ltb_lt in Hlt. lia. }
  destruct Hn as [Hlen Hnth]. unfold fires. rewrite <- Hlen.
  destruct (n <? List.length lines)%nat.
  - rewrite (Hnth eq_refl). reflexivity.
  - destruct h; rewrite !andb_false_r; reflexivity.
Qed.

(** X5.  Whether a line is reported depends on that line and the next one
    only: two texts that agree on line N and on line N + 1 (or both end at
    line N) agree on each of the two line issues for N, whatever their other
    lines are. *)
Theorem line_checks_are_local : forall content content' n,
  nth_error (split NL content) (n - 1) = nth_error (split NL content') (n - 1) ->
  nth_error (split NL content) n = nth_error (split NL content') n ->
  (In (lit "Line " ++ format_nat n
         ++ lit ": DispatchQueue.main.async might be missing opening brace")
      (scan_text isalnum content)
   <-> In (lit "Line " ++ format_nat n
             ++ lit ": DispatchQueue.main.async might be missing opening brace")
          (scan_text isalnum content'))
  /\ (In (lit "Line " ++ format_nat n ++ lit ": Function appears to have empty body")
         (scan_text isalnum content)
      <-> In (lit "Line " ++ format_nat n ++ lit ": Function appears to have empty body")
             (scan_text isalnum content')).
Proof.
  intros content content' n Hcur Hnext.
  assert (H : forall h, In (line_message h n) (scan_text isalnum content)
                        <-> In (line_message h n) (scan_text isalnum content')).
  { intros h. rewrite !line_issue_iff. rewrite Hcur.
    split; intros (line & Hle & Hn & Hf); exists line; repeat split; auto.
    - rewrite <- (fires_local _ _ _ _ _ Hnext). exact Hf.
    - rewrite (fires_local _ _ _ _ _ Hnext). exact Hf. }
  split; [exact (H DanglingAsync) | exact (H EmptyBody)].
Qed.

End ScannerCoverage.

(* ================================================================== *)
(** ** Further properties of the driver *)

Section DriverCoverage.
Import PyStr TextIO IO.

Variable isalnum : char -> bool.

Lemma print_issues_stdout : forall found,
  stdout (print_issues found) = map issue_line found.
Proof.
  induction found as [|issue rest IH]; [reflexivity|].
  cbn [print_issues map]. rewrite print_then_stdout, IH. reflexivity.
Qed.

(** What the body of the loop prints for a path is the path's block. *)
Lemma check_one_report : forall fs p total,
  stdout (check_one isalnum fs p total) = file_report isalnum fs p.
Proof.
  intros fs p total. unfold check_one, file_report.
  destruct (path_exists fs p); [|reflexivity].
  rewrite print_then_stdout. f_equal.
  destruct (check_swift_file isalnum fs p) as [e|[|issue rest]]; try reflexivity.
  rewrite lift_return_bind, print_then_stdout. f_equal.
  rewrite bind_stdout, print_issues_outcome, print_issues_stdout.
  apply app_nil_r.
Qed.

Lemma check_files_report : forall fs files total,
  (forall p, In p files -> readable fs p) ->
  stdout (check_files isalnum fs files total) = flat_map (file_report isalnum fs) files.
Proof.
  intros fs. induction files as [|p files IH]; intros total Hr; [reflexivity|].
  cbn [check_files flat_map].
  rewrite bind_stdout, check_one_report.
  rewrite check_one_count by (apply Hr; left; reflexivity).
  rewrite IH by (intros q Hq; apply Hr; right; exact Hq). reflexivity.
Qed.

Lemma exit_status_cases : forall fs,
  exit_status isalnum fs
  = match outcome (check_files isalnum fs modified_files 0%Z) with
    | inl _ => 1%Z
    | inr total => if (total =? 0)%Z then 0%Z else 1%Z
    end.
Proof.
  intros fs. unfold exit_status, main. rewrite run_outcome.
  destruct (outcome (check_files isalnum fs modified_files 0%Z)); reflexivity.
Qed.

Lemma issue_count_nonneg : forall fs p, (0 <= issue_count isalnum fs p)%Z.
Proof.
  intros fs p. unfold issue_count. destruct (path_exists fs p); [|lia].
  destruct (check_swift_file isalnum fs p); lia.
Qed.

Lemma issues_total_zero_inv : forall fs files,
  issues_total isalnum fs files = 0%Z ->
  forall p, In p files -> issue_count isalnum fs p = 0%Z.
Proof.
  intros fs. unfold issues_total.
  induction files as [|q files IH]; intros H p Hin; [destruct Hin|].
  cbn [map fold_right] in H.
  pose proof (issue_count_nonneg fs q) as Hq.
  assert (Hrest : (0 <= fold_right Z.add 0 (map (issue_count isalnum fs) files))%Z).
  { clear. induction files as [|r files IHf]; cbn [map fold_right]; [lia|].
    pose proof (issue_count_nonneg fs r). lia. }
  destruct Hin as [<-|Hin]; [lia|]. apply IH; [lia | exact Hin].
Qed.

(** X2.  The exit status is 0 exactly when every listed file is absent or is
    read and scanned without an issue; any issue in any file, and any file
    that cannot be read, makes it 1. *)
Theorem exit_zero_iff_all_clean : forall fs,
  exit_status isalnum fs = 0%Z
  <-> forall p, In p modified_files ->
        fs p = None \/ check_swift_file isalnum fs p = inr [].
Proof.
  intros fs. rewrite exit_status_cases. split.
  - intros H p Hp.
    destruct (outcome (check_files isalnum fs modified_files 0%Z)) as [e|total] eqn:Hl;
      [discriminate|].
    destruct (Z.eqb_spec total 0) as [Hz|Hz]; [subst total | discriminate].
    pose proof (returns_then_readable _ _ _ _ Hl) as Hr.
    rewrite check_files_total in Hl by exact Hr. injection Hl as Hl.
    assert (Ht : issues_total isalnum fs modified_files = 0%Z) by lia.
    pose proof (issues_total_zero_inv _ _ Ht p Hp) as Hc.
    unfold issue_count in Hc. specialize (Hr p Hp). unfold readable in Hr.
    unfold path_exists in *. destruct (fs p) as [e|] eqn:Hfs; [right | left; reflexivity].
    destruct (Hr eq_refl) as (content & Hread).
    unfold check_swift_file in *. rewrite Hread in *.
    destruct (scan_text isalnum content); [reflexivity | discriminate Hc].
  - intros Hclean.
    assert (Hr : forall p, In p modified_files -> readable fs p).
    { intros p Hp Hex. destruct (Hclean p Hp) as [Hnone|Hok].
      - unfold path_exists in Hex. rewrite Hnone in Hex. discriminate.
      - unfold check_swift_file in Hok.
        destruct (read_text fs p) as [e|content]; [discriminate|eauto]. }
    rewrite check_files_total by exact Hr.
    rewrite issues_total_zero; [reflexivity|].
    intros p Hp. destruct (Hclean p Hp) as [Hnone|Hok].
    + apply issue_count_absent. exact Hnone.
    + unfold issue_count. rewrite Hok. destruct (path_exists fs p); reflexivity.
Qed.

(** X1.  The report of a run in which every listed file that exists can be
    read: the banner; then, in the order of the file list, one block per path
    (the "File not found" line, or the line announcing the file followed by
    "No syntax issues found" or by "Found n issues:" and one bullet line per
    issue, n being their number); then the summary with the number of paths
    that exist and the sum of the files' issue counts; then the verdict for
    that sum. *)
Theorem report_of_completed_run : forall fs,
  (forall p, In p modified_files -> readable fs p) ->
  stdout (main isalnum fs)
  = banner_line
    :: flat_map (file_report isalnum fs) modified_files
    ++ summary_lines (files_checked fs modified_files)
         (issues_total isalnum fs modified_files)
    ++ [verdict_line (issues_total isalnum fs modified_files)].
Proof.
  intros fs Hr. unfold main.
  rewrite run_stdout, check_files_report, check_files_total by exact Hr.
  rewrite Z.add_0_l. reflexivity.
Qed.

End DriverCoverage.

(* ================================================================== *)
(** ** Line endings *)

Module LineEndings.
Import PyStr TextIO.

Lemma byte_is_lf : forall b, Byte.eqb b Byte.x0a = (Byte.to_N b =? NL)%N.
Proof. destruct b; reflexivity. Qed.

Lemma bytes_crlf : forall data,
  map Byte.to_N (crlf_bytes data) = to_crlf (map Byte.to_N data).
Proof.
  induction data as [|b data IH]; [reflexivity|].
  unfold crlf_bytes in *. cbn [flat_map map to_crlf].
  rewrite map_app, IH, byte_is_lf.
  destruct (Byte.to_N b =? NL)%N; reflexivity.
Qed.

Lemma bytes_no_cr : forall data,
  ~ In Byte.x0d data -> ~ In CR (map Byte.to_N data).
Proof.
  intros data H Hin. apply in_map_iff in Hin. destruct Hin as (b & Hb & Hin).
  apply H. replace Byte.x0d with b; [exact Hin|].
  destruct b; try discriminate Hb; reflexivity.
Qed.

Ltac bounds :=
  unfold between, cont, low6, NL, CR in *;
  repeat match goal with
         | H : (_ && _) = true |- _ => apply andb_true_iff in H; destruct H
         | H : (_ <=? _)%N = true |- _ => apply N.leb_le in H
         | H : (_ <=? _)%N = false |- _ => apply N.leb_gt in H
         | H : (_ =? _)%N = true |- _ => apply N.eqb_eq in H
         | H : (_ =? _)%N = false |- _ => apply N.eqb_neq in H
         end.

(** A character that takes more than one byte is not below 128. *)
Lemma two_bytes_high : forall b0 b1,
  between 0xC2 0xDF b0 = true -> (128 <= (b0 - 0xC0) * 64 + low6 b1)%N.
Proof. intros. bounds. lia. Qed.

Lemma three_bytes_high : forall b0 b1 b2,
  between 0xE0 0xEF b0 = true ->
  between (if (b0 =? 0xE0)%N then 0xA0 else 0x80)%N
          (if (b0 =? 0xED)%N then 0x9F else 0xBF)%N b1 = true ->
  (128 <= ((b0 - 0xE0) * 64 + low6 b1) * 64 + low6 b2)%N.
Proof.
  intros b0 b1 b2 H0 H1. destruct (b0 =? 0xE0)%N eqn:E; bounds; lia.
Qed.

Lemma four_bytes_high : forall b0 b1 b2 b3,
  between 0xF0 0xF4 b0 = true ->
  between (if (b0 =? 0xF0)%N then 0x90 else 0x80)%N
          (if (b0 =? 0xF4)%N then 0x8F else 0xBF)%N b1 = true ->
  (128 <= (((b0 - 0xF0) * 64 + low6 b1) * 64 + low6 b2) * 64 + low6 b3)%N.
Proof.
  intros b0 b1 b2 b3 H0 H1. destruct (b0 =? 0xF0)%N eqn:E; bounds; lia.
Qed.

Lemma to_crlf_high : forall c s, (128 <= c)%N -> to_crlf (c :: s) = c :: to_crlf s.
Proof.
  intros c s H. cbn [to_crlf].
  destruct (c =? NL)%N eqn:E; [|reflexivity]. bounds. lia.
Qed.

Lemma range_not_low : forall lo hi b,
  (128 <= lo)%N -> (b < 128)%N -> between lo hi b = false.
Proof.
  intros lo hi b Hlo Hb. unfold between.
  destruct (lo <=? b)%N eqn:E; [|reflexivity]. bounds. lia.
Qed.

Lemma lead_range : forall b0 x,
  ((if (b0 =? x)%N then 0xA0 else 0x80) >= 128
   /\ (if (b0 =? x)%N then 0x90 else 0x80) >= 128)%N.
Proof. intros b0 x. destruct (b0 =? x)%N; lia. Qed.

Ltac low_fails :=
  repeat match goal with
         | |- context [between ?lo ?hi NL] =>
             rewrite (@range_not_low lo hi NL)
               by (first [ apply N.ge_le, (proj1 (lead_range _ _))
                         | apply N.ge_le, (proj2 (lead_range _ _)) ]
                   || (unfold NL; lia))
         | |- context [between ?lo ?hi CR] =>
             rewrite (@range_not_low lo hi CR)
               by (first [ apply N.ge_le, (proj1 (lead_range _ _))
                         | apply N.ge_le, (proj2 (lead_range _ _)) ]
                   || (unfold CR; lia))
         end;
  change (cont NL) with false; change (cont CR) with false;
  rewrite ?andb_false_r; cbn [andb].

Ltac split_lf b :=
  let E := fresh "E" in
  destruct (b =? NL)%N eqn:E; [apply N.eqb_eq in E; subst b|].

Ltac dead_end :=
  repeat match goal with
         | |- context [(?b =? NL)%N] => is_var b; split_lf b
         end;
  low_fails; reflexivity.

(** Decoding commutes with the change of line endings. *)
Lemma decode_crlf_bounded : forall n bs,
  (List.length bs <= n)%nat ->
  decode_utf8 (to_crlf bs) = option_map to_crlf (decode_utf8 bs).
Proof.
  induction n as [|n IH]; intros bs Hlen.
  { destruct bs; [reflexivity | simpl in Hlen; lia]. }
  destruct bs as [|b0 t0]; [reflexivity|]. cbn [List.length] in Hlen.
  assert (IH0 := IH t0 ltac:(lia)).
  cbn [to_crlf]. destruct (b0 =? NL)%N eqn:E0.
  { apply N.eqb_eq in E0. subst b0.
    change (decode_utf8 (CR :: NL :: to_crlf t0))
      with (option_map (cons CR) (option_map (cons NL) (decode_utf8 (to_crlf t0)))).
    change (decode_utf8 (NL :: t0)) with (option_map (cons NL) (decode_utf8 t0)).
    rewrite IH0. destruct (decode_utf8 t0); reflexivity. }
  cbn [decode_utf8]. destruct (b0 <=? 0x7F)%N eqn:L0.
  { rewrite IH0. destruct (decode_utf8 t0); cbn [option_map to_crlf];
      [rewrite E0|]; reflexivity. }
  destruct (between 0xC2 0xDF b0) eqn:B2.
  { destruct t0 as [|b1 t1]; [reflexivity|]. cbn [to_crlf].
    split_lf b1; [reflexivity|].
    destruct (cont b1) eqn:C1; [|reflexivity].
    rewrite (IH t1) by (cbn [List.length] in Hlen; lia).
    destruct (decode_utf8 t1); cbn [option_map]; [|reflexivity].
    rewrite to_crlf_high by (apply two_bytes_high; assumption). reflexivity. }
  destruct (between 0xE0 0xEF b0) eqn:B3.
  { destruct t0 as [|b1 [|b2 t2]]; [reflexivity| |].
    - cbn [to_crlf]. dead_end.
    - cbn [to_crlf]. split_lf b1; [dead_end|]. split_lf b2; [dead_end|].
      destruct (between _ _ b1 && cont b2) eqn:C; [|reflexivity].
      apply andb_true_iff in C. destruct C as [C1 C2].
      rewrite (IH t2) by (cbn [List.length] in Hlen; lia).
      destruct (decode_utf8 t2); cbn [option_map]; [|reflexivity].
      rewrite to_crlf_high by (apply three_bytes_high; assumption). reflexivity. }
  destruct (between 0xF0 0xF4 b0) eqn:B4; [|reflexivity].
  destruct t0 as [|b1 [|b2 [|b3 t3]]]; [reflexivity| | |].
  - cbn [to_crlf]. dead_end.
  - cbn [to_crlf]. dead_end.
  - cbn [to_crlf]. split_lf b1; [dead_end|]. split_lf b2; [dead_end|].
    split_lf b3; [dead_end|].
    destruct (between _ _ b1 && cont b2 && cont b3) eqn:C; [|reflexivity].
    apply andb_true_iff in C. destruct C as [C C3].
    apply andb_true_iff in C. destruct C as [C1 C2].
    rewrite (IH t3) by (cbn [List.length] in Hlen; lia).
    destruct (decode_utf8 t3); cbn [option_map]; [|reflexivity].
    rewrite to_crlf_high by (apply four_bytes_high; assumption). reflexivity.
Qed.

Lemma decode_crlf : forall bs,
  decode_utf8 (to_crlf bs) = option_map to_crlf (decode_utf8 bs).
Proof. intros bs. apply (decode_crlf_bounded (n := List.length bs)). lia. Qed.

(** A character decoded from bytes without a carriage return is not one. *)
Lemma decode_no_cr_bounded : forall n bs s,
  (List.length bs <= n)%nat ->
  decode_utf8 bs = Some s -> ~ In CR bs -> ~ In CR s.
Proof.
  induction n as [|n IH]; intros bs s Hlen Hdec Hno.
  { destruct bs; [|simpl in Hlen; lia]. injection Hdec as <-. exact Hno. }
  destruct bs as [|b0 t0]; [injection Hdec as <-; exact Hno|].
  cbn [List.length] in Hlen. cbn [decode_utf8] in Hdec.
  assert (Hstep : forall c t,
             (List.length t <= n)%nat -> c <> CR -> (forall x, In x t -> In x (b0 :: t0)) ->
             option_map (cons c) (decode_utf8 t) = Some s -> ~ In CR s).
  { intros c t Ht Hc Hsub E. destruct (decode_utf8 t) as [s'|] eqn:Et; [|discriminate].
    injection E as <-. intros [Hin|Hin]; [congruence|].
    revert Hin. apply (IH t s' Ht Et). intros Hin. apply Hno. auto. }
  destruct (b0 <=? 0x7F)%N eqn:L0.
  { apply (Hstep b0 t0); [lia| |intros x Hx; right; exact Hx|exact Hdec].
    intros ->. apply Hno. left. reflexivity. }
  destruct (between 0xC2 0xDF b0) eqn:B2.
  { destruct t0 as [|b1 t1]; [discriminate|].
    destruct (cont b1); [|discriminate].
    apply (Hstep _ t1) in Hdec; auto.
    - cbn [List.length] in Hlen. lia.
    - pose proof (two_bytes_high b0 b1 B2). unfold CR. lia.
    - intros x Hx. right. right. exact Hx. }
  destruct (between 0xE0 0xEF b0) eqn:B3.
  { destruct t0 as [|b1 [|b2 t2]]; try discriminate.
    destruct (between _ _ b1 && cont b2) eqn:C; [|discriminate].
    apply andb_true_iff in C. destruct C as [C1 C2].
    apply (Hstep _ t2) in Hdec; auto.
    - cbn [List.length] in Hlen. lia.
    - pose proof (three_bytes_high b0 b1 b2 B3 C1). unfold CR. lia.
    - intros x Hx. right. right. right. exact Hx. }
  destruct (between 0xF0 0xF4 b0) eqn:B4; [|discriminate].
  destruct t0 as [|b1 [|b2 [|b3 t3]]]; try discriminate.
  destruct (between _ _ b1 && cont b2 && cont b3) eqn:C; [|discriminate].
  apply andb_true_iff in C. destruct C as [C C3].
  apply andb_true_iff in C. destruct C as [C1 C2].
  apply (Hstep _ t3) in Hdec; auto.
  - cbn [List.length] in Hlen. lia.
  - pose proof (four_bytes_high b0 b1 b2 b3 B4 C1). unfold CR. lia.
  - intros x Hx. right. right. right. right. exact Hx.
Qed.

(** Reading a text leaves no carriage return in it. *)
Lemma universal_newlines_no_cr_bounded : forall n s,
  (List.length s <= n)%nat -> ~ In CR (universal_newlines s).
Proof.
  induction n as [|n IH]; intros s Hlen.
  { destruct s; [intros [] | simpl in Hlen; lia]. }
  destruct s as [|c rest]; [intros []|]. cbn [List.length] in Hlen.
  cbn [universal_newlines]. destruct (c =? 13)%N eqn:E.
  - destruct rest as [|d rest'].
    + intros [H|[]]. discriminate H.
    + cbn [List.length] in Hlen.
      destruct (d =? 10)%N; intros [H|H]; try discriminate H;
        revert H; apply IH; cbn [List.length]; lia.
  - intros [H|H].
    + apply N.eqb_neq in E. apply E. exact H.
    + revert H. apply IH. lia.
Qed.

Lemma universal_newlines_plain : forall s,
  ~ In CR s -> universal_newlines s = s.
Proof.
  induction s as [|c s IH]; intros H; [reflexivity|].
  cbn [universal_newlines]. destruct (c =? 13)%N eqn:E.
  - apply N.eqb_eq in E. exfalso. apply H. left. exact E.
  - rewrite IH; [reflexivity|]. intros Hin. apply H. right. exact Hin.
Qed.

Lemma universal_newlines_crlf : forall s,
  ~ In CR s -> universal_newlines (to_crlf s) = s.
Proof.
  induction s as [|c s IH]; intros H; [reflexivity|].
  assert (Hs : ~ In CR s) by (intros Hin; apply H; right; exact Hin).
  cbn [to_crlf]. destruct (c =? NL)%N eqn:E.
  - apply N.eqb_eq in E. subst c.
    change (universal_newlines (CR :: NL :: to_crlf s))
      with (NL :: universal_newlines (to_crlf s)).
    rewrite IH by exact Hs. reflexivity.
  - cbn [universal_newlines]. destruct (c =? 13)%N eqn:E'.
    + apply N.eqb_eq in E'. exfalso. apply H. left. exact E'.
    + rewrite IH by exact Hs. reflexivity.
Qed.

End LineEndings.

Section LineEndingProperties.
Import PyStr TextIO LineEndings.

Variable isalnum : char -> bool.

(** X10.  The text the scanner is given never holds a carriage return, and a
    file with CR LF line endings gets the issues (or the decoding error) of
    the same file with LF line endings. *)
Theorem crlf_file_scans_like_lf :
  (forall fs p content, read_text fs p = inr content -> ~ In CR content)
  /\ (forall fs1 fs2 p1 p2 data,
        fs1 p1 = Some (RegularFile data) ->
        fs2 p2 = Some (RegularFile (crlf_bytes data)) ->
        ~ In Byte.x0d data ->
        check_swift_file isalnum fs2 p2 = check_swift_file isalnum fs1 p1).
Proof.
  split.
  - intros fs p content H. unfold read_text in H.
    destruct (fs p) as [[data|]|]; try discriminate.
    destruct (decode_utf8 (map Byte.to_N data)) as [s|]; [|discriminate].
    injection H as <-. apply (universal_newlines_no_cr_bounded (n := List.length s)). lia.
  - intros fs1 fs2 p1 p2 data H1 H2 Hno.
    unfold check_swift_file, read_text. rewrite H1, H2, bytes_crlf, decode_crlf.
    destruct (decode_utf8 (map Byte.to_N data)) as [s|] eqn:Hdec; [|reflexivity].
    cbn [option_map].
    assert (Hs : ~ In CR s).
    { apply (decode_no_cr_bounded (n := List.length (map Byte.to_N data)) _ (le_n _) Hdec).
      apply bytes_no_cr. exact Hno. }
    rewrite universal_newlines_crlf, universal_newlines_plain by exact Hs.
    reflexivity.
Qed.

End LineEndingProperties.

(* ================================================================== *)
(** ** The further properties on concrete texts and file systems *)

Section MoreRuns.
Import PyStr Re TextIO IO Samples PyStrFacts.

Ltac listed_file :=
  let p := fresh "p" in
  let H := fresh "H" in
  intros p H; unfold modified_files in H; simpl in H;
  repeat (destruct H as [H|H]; [subst p|]); try contradiction.

Ltac can_be_read :=
  let Hex := fresh "Hex" in
  unfold readable; intros Hex;
  first [ vm_compute in Hex; discriminate Hex
        | eexists; vm_compute; reflexivity ].

Lemma plain_text_has_no_issues_witness :
  contains marker plain_text = false
  /\ scan_text ascii_alnum plain_text = [].
Proof.
  split; [reflexivity|].
  apply (@plain_text_has_no_issues ascii_alnum plain_text); [|reflexivity].
  intros c Hin. vm_compute in Hin.
  repeat (destruct Hin as [Hin|Hin]; [subst c; reflexivity|]). destruct Hin.
Defined.

Lemma balance_issues_ignore_order_witness :
  Permutation ordered misordered
  /\ filter (is_balance_issue Brace) (scan_text ascii_alnum ordered)
     = filter (is_balance_issue Brace) (scan_text ascii_alnum misordered).
Proof.
  assert (Hp : Permutation ordered misordered) by apply perm_swap.
  split; [exact Hp|].
  apply (@balance_issues_ignore_order ascii_alnum ordered misordered Hp).
Defined.

Lemma report_of_completed_run_witness :
  (forall p, In p modified_files -> readable two_issues_fs p)
  /\ stdout (main ascii_alnum two_issues_fs)
     = banner_line
       :: flat_map (file_report ascii_alnum two_issues_fs) modified_files
       ++ summary_lines (files_checked two_issues_fs modified_files)
            (issues_total ascii_alnum two_issues_fs modified_files)
       ++ [verdict_line (issues_total ascii_alnum two_issues_fs modified_files)].
Proof.
  assert (Hr : forall p, In p modified_files -> readable two_issues_fs p)
    by (listed_file; can_be_read).
  split; [exact Hr|].
  apply (@report_of_completed_run ascii_alnum two_issues_fs Hr).
Defined.

Lemma line_checks_are_local_witness :
  In (lit "Line " ++ format_nat 1
        ++ lit ": DispatchQueue.main.async might be missing opening brace")
     (scan_text ascii_alnum dangling_async)
  <-> In (lit "Line " ++ format_nat 1
            ++ lit ": DispatchQueue.main.async might be missing opening brace")
         (scan_text ascii_alnum dangling_async_longer).
Proof.
  assert (Hcur : nth_error (split NL dangling_async) (1 - 1)
                 = nth_error (split NL dangling_async_longer) (1 - 1))
    by (vm_compute; reflexivity).
  assert (Hnext : nth_error (split NL dangling_async) 1
                  = nth_error (split NL dangling_async_longer) 1)
    by (vm_compute; reflexivity).
  exact (proj1 (@line_checks_are_local ascii_alnum dangling_async
                  dangling_async_longer 1 Hcur Hnext)).
Defined.

Lemma crlf_file_scans_like_lf_witness :
  ~ In Byte.x0d (bytes_of empty_func)
  /\ check_swift_file ascii_alnum crlf_fs first_file
     = check_swift_file ascii_alnum lf_fs last_file.
Proof.
  assert (Hno : ~ In Byte.x0d (bytes_of empty_func)).
  { vm_compute. intros H. repeat (destruct H as [H|H]; [discriminate H|]). exact H. }
  split; [exact Hno|].
  apply (proj2 (crlf_file_scans_like_lf ascii_alnum) lf_fs crlf_fs last_file first_file
           (bytes_of empty_func)).
  - vm_compute. reflexivity.
  - vm_compute. reflexivity.
  - exact Hno.
Defined.

End MoreRuns.
